(** * Differential rendering and modal focus of the TUI orchestrator

    A shallow embedding of [src/tui.ts] (classes [Container] and [TUI]):
    the previous-frame baseline, the four-way render algorithm of
    [doRender], modal compositing, and the focus bookkeeping of
    [showModal] / [hideModal].

    Numbers are [Z] (every number the engine handles is an integer: line
    counts, row indices, terminal dimensions).  Strings are [string];
    arrays of lines are [list string].  Component objects are references
    into a store of render methods, so that focus, the modal slot and the
    child list may alias the same object.  *)

From Stdlib Require Import ZArith String Ascii Bool DecimalString.
From stdpp Require Import base list strings.

Local Open Scope Z_scope.

(** ** JavaScript values and exceptions *)

Module Js.

(** The two exceptions a render pass can raise:
    [String.prototype.repeat] with a negative count, and the engine's
    own [Error] for a rendered line that is too wide (carrying the
    line index of the message). *)
Inductive Exception : Type :=
| RangeError
| RenderedLineExceeds (i : Z).

Inductive Result (A : Type) : Type :=
| Ok (a : A)
| Throw (e : Exception).
Arguments Ok {A} a.
Arguments Throw {A} e.

Definition bind {A B : Type} (r : Result A) (k : A -> Result B) : Result B :=
  match r with
  | Ok a => k a
  | Throw e => Throw e
  end.

(** Template-literal formatting of an integer: [`${n}`]. *)
Definition numToString (n : Z) : string :=
  NilZero.string_of_int (Z.to_int n).

(** [s.repeat(count)] *)
Definition repeat (s : string) (count : Z) : Result string :=
  if count <? 0 then Throw RangeError
  else Ok (String.concat "" (replicate (Z.to_nat count) s)).

(** [line.includes(needle)] *)
Fixpoint includes (line needle : string) : bool :=
  String.prefix needle line
  || match line with
     | EmptyString => false
     | String _ rest => includes rest needle
     end.

(** [i < a.length ? a[i] : ""] *)
Definition lineAt (a : list string) (i : nat) : string :=
  default ""%string (a !! i).

End Js.

#[global] Instance Result_bind : MBind Js.Result := fun A B k r => Js.bind r k.
#[global] Instance Result_ret : MRet Js.Result := fun A a => Js.Ok a.

(** ** Control sequences *)

Module Ansi.

Definition ESC : string := String (ascii_of_nat 27) EmptyString.
Definition CR : string := String (ascii_of_nat 13) EmptyString.
Definition CRLF : string := String (ascii_of_nat 13) (String (ascii_of_nat 10) EmptyString).

Definition CSI (s : string) : string := ESC +:+ "[" +:+ s.

(** ["\x1b[?2026h"] and ["\x1b[?2026l"] *)
Definition SYNC_BEGIN : string := CSI "?2026h".
Definition SYNC_END : string := CSI "?2026l".
(** ["\x1b[3J\x1b[2J\x1b[H"] *)
Definition CLEAR_ALL : string := CSI "3J" +:+ CSI "2J" +:+ CSI "H".
(** ["\x1b[2K"] *)
Definition CLEAR_LINE : string := CSI "2K".
(** [`\x1b[${n}B`] and [`\x1b[${n}A`] *)
Definition DOWN (n : Z) : string := CSI (Js.numToString n +:+ "B").
Definition UP (n : Z) : string := CSI (Js.numToString n +:+ "A").

(** The two image-protocol introducers tested by [containsImage]. *)
Definition KITTY : string := ESC +:+ "_G".
Definition ITERM : string := ESC +:+ "]1337;File=".

End Ansi.

(** ** The text-measurement helpers imported from [utils.js]

    [tui.ts] imports [visibleWidth], [padToWidth], [overlayLineAt] and
    [dimLine]; the engine is verified for every implementation of them. *)

Class Utils : Type := {
  visibleWidth : string -> Z;
  padToWidth : string -> Z -> string;
  overlayLineAt : string -> string -> Z -> Z -> string;
  dimLine : string -> string
}.

(** ** Data model *)

(** A [Component] value is a reference to a component object; what the
    object currently renders is looked up in the store of the [TUI]
    state.  Two references are the same object exactly when they are
    equal. *)
Definition Component : Type := nat.

(** [interface ModalOptions]: both properties are optional. *)
Record ModalOptions : Type := mkModalOptions {
  width : option Z;
  dimBackground : option bool
}.

Record ModalState : Type := mkModalState {
  component : Component;
  options : ModalOptions;
  previousFocus : option Component
}.

(** The [Terminal] collaborator as the engine uses it: the two
    dimensions it reads and the sequence of [write] calls it has
    received. *)
Record Terminal : Type := mkTerminal {
  columns : Z;
  rows : Z;
  written : list string
}.

(** The fields of [class TUI] (with [children] inherited from
    [Container]) and the store of component objects. *)
Record TUI : Type := mkTUI {
  objects : Component -> Z -> list string;
  children : list Component;
  terminal : Terminal;
  previousLines : list string;
  previousWidth : Z;
  focusedComponent : option Component;
  renderRequested : bool;
  cursorRow : Z;
  inputBuffer : string;
  cellSizeQueryPending : bool;
  modalState : option ModalState
}.

(** Field assignments. *)

Definition set_objects (o : Component -> Z -> list string) (t : TUI) : TUI :=
  mkTUI o (children t) (terminal t) (previousLines t) (previousWidth t)
        (focusedComponent t) (renderRequested t) (cursorRow t)
        (inputBuffer t) (cellSizeQueryPending t) (modalState t).

Definition set_children (cs : list Component) (t : TUI) : TUI :=
  mkTUI (objects t) cs (terminal t) (previousLines t) (previousWidth t)
        (focusedComponent t) (renderRequested t) (cursorRow t)
        (inputBuffer t) (cellSizeQueryPending t) (modalState t).

Definition set_terminal (tm : Terminal) (t : TUI) : TUI :=
  mkTUI (objects t) (children t) tm (previousLines t) (previousWidth t)
        (focusedComponent t) (renderRequested t) (cursorRow t)
        (inputBuffer t) (cellSizeQueryPending t) (modalState t).

Definition set_previousLines (ls : list string) (t : TUI) : TUI :=
  mkTUI (objects t) (children t) (terminal t) ls (previousWidth t)
        (focusedComponent t) (renderRequested t) (cursorRow t)
        (inputBuffer t) (cellSizeQueryPending t) (modalState t).

Definition set_previousWidth (w : Z) (t : TUI) : TUI :=
  mkTUI (objects t) (children t) (terminal t) (previousLines t) w
        (focusedComponent t) (renderRequested t) (cursorRow t)
        (inputBuffer t) (cellSizeQueryPending t) (modalState t).

Definition set_focusedComponent (c : option Component) (t : TUI) : TUI :=
  mkTUI (objects t) (children t) (terminal t) (previousLines t) (previousWidth t)
        c (renderRequested t) (cursorRow t)
        (inputBuffer t) (cellSizeQueryPending t) (modalState t).

Definition set_renderRequested (b : bool) (t : TUI) : TUI :=
  mkTUI (objects t) (children t) (terminal t) (previousLines t) (previousWidth t)
        (focusedComponent t) b (cursorRow t)
        (inputBuffer t) (cellSizeQueryPending t) (modalState t).

Definition set_cursorRow (r : Z) (t : TUI) : TUI :=
  mkTUI (objects t) (children t) (terminal t) (previousLines t) (previousWidth t)
        (focusedComponent t) (renderRequested t) r
        (inputBuffer t) (cellSizeQueryPending t) (modalState t).

Definition set_cellSizeQueryPending (b : bool) (t : TUI) : TUI :=
  mkTUI (objects t) (children t) (terminal t) (previousLines t) (previousWidth t)
        (focusedComponent t) (renderRequested t) (cursorRow t)
        (inputBuffer t) b (modalState t).

Definition set_modalState (m : option ModalState) (t : TUI) : TUI :=
  mkTUI (objects t) (children t) (terminal t) (previousLines t) (previousWidth t)
        (focusedComponent t) (renderRequested t) (cursorRow t)
        (inputBuffer t) (cellSizeQueryPending t) m.

(** [this.terminal.write(data)] *)
Definition terminal_write (data : string) (t : TUI) : TUI :=
  set_terminal (mkTerminal (columns (terminal t)) (rows (terminal t))
                           (written (terminal t) ++ [data])) t.

(** ** [class Container] *)

Module Container.

Definition addChild (c : Component) (t : TUI) : TUI :=
  set_children (children t ++ [c]) t.

(** [indexOf] then [splice(index, 1)]: the first occurrence goes. *)
Fixpoint removeFirst (c : Component) (cs : list Component) : list Component :=
  match cs with
  | [] => []
  | x :: rest => if Nat.eqb x c then rest else x :: removeFirst c rest
  end.

Definition removeChild (c : Component) (t : TUI) : TUI :=
  set_children (removeFirst c (children t)) t.

Definition clear (t : TUI) : TUI := set_children [] t.

(** [render(width)]: every child's lines, in order. *)
Definition render (t : TUI) (w : Z) : list string :=
  fold_left (fun lines child => lines ++ objects t child w) (children t) [].

End Container.

(** ** Focus, modal and scheduling operations of [class TUI] *)

Definition setFocus (c : option Component) (t : TUI) : TUI :=
  set_focusedComponent c t.

(** [requestRender]: the flag stands for the one callback queued with
    [process.nextTick]. *)
Definition requestRender (t : TUI) : TUI :=
  if renderRequested t then t else set_renderRequested true t.

(** [{ dimBackground: true, ...options }] *)
Definition withDefaults (o : ModalOptions) : ModalOptions :=
  mkModalOptions (width o)
                 (match dimBackground o with
                  | Some b => Some b
                  | None => Some true
                  end).

Definition showModal (c : Component) (o : ModalOptions) (t : TUI) : TUI :=
  let t := set_modalState
             (Some (mkModalState c (withDefaults o) (focusedComponent t))) t in
  let t := setFocus (Some c) t in
  requestRender t.

Definition hideModal (t : TUI) : TUI :=
  match modalState t with
  | None => t
  | Some ms =>
      let previousFocus := previousFocus ms in
      let t := set_modalState None t in
      let t := match previousFocus with
               | Some c => setFocus (Some c) t
               | None => t
               end in
      requestRender t
  end.

Definition isModalVisible (t : TUI) : bool :=
  match modalState t with Some _ => true | None => false end.

Definition getModalComponent (t : TUI) : option Component :=
  match modalState t with Some ms => Some (component ms) | None => None end.

(** [queryCellSize()]; [images] is [getCapabilities().images]. *)
Definition queryCellSize (images : bool) (t : TUI) : TUI :=
  if negb images then t
  else
    let t := set_cellSizeQueryPending true t in
    terminal_write (Ansi.CSI "16t") t.

(** [start()]: registering the two callbacks and hiding the cursor are
    the terminal's business; the orchestrator's own part is the
    cell-size query and the first render request. *)
Definition start (images : bool) (t : TUI) : TUI :=
  let t := queryCellSize images t in
  requestRender t.

Definition fullRefresh (t : TUI) : TUI :=
  let t := set_previousLines [] t in
  let t := set_previousWidth 0 t in
  let t := set_cursorRow 0 t in
  let t := terminal_write Ansi.CLEAR_ALL t in
  requestRender t.

(** ** The render pass *)

Section Render.

Context {U : Utils}.

(** [containsImage(line)] *)
Definition containsImage (line : string) : bool :=
  Js.includes line Ansi.KITTY || Js.includes line Ansi.ITERM.

(** [options.width ?? Math.min(60, terminalWidth - 10)] *)
Definition modalWidthOf (o : ModalOptions) (terminalWidth : Z) : Z :=
  match width o with
  | Some w => w
  | None => Z.min 60 (terminalWidth - 10)
  end.

(** [Math.max(0, Math.floor((terminalHeight - modalHeight) / 2))] *)
Definition startRowOf (terminalHeight modalHeight : Z) : Z :=
  Z.max 0 ((terminalHeight - modalHeight) / 2).

(** [Math.max(0, Math.floor((terminalWidth - modalWidth) / 2))] *)
Definition startColOf (terminalWidth modalWidth : Z) : Z :=
  Z.max 0 ((terminalWidth - modalWidth) / 2).

(** The [while (paddedBg.length < terminalHeight)] loop, run for the
    [n] iterations it takes; each iteration evaluates
    [" ".repeat(terminalWidth)]. *)
Fixpoint padLoop (n : nat) (paddedBg : list string) (terminalWidth : Z)
  : Js.Result (list string) :=
  match n with
  | O => Js.Ok paddedBg
  | S n' =>
      blank ← Js.repeat " " terminalWidth;
      padLoop n' (paddedBg ++ [blank]) terminalWidth
  end.

(** The optional dimming of the padded background. *)
Definition dimBg (o : ModalOptions) (paddedBg : list string) : list string :=
  match dimBackground o with
  | Some false => paddedBg
  | _ => map dimLine paddedBg
  end.

(** One iteration of the compositing loop: row [startRow + i] of the
    result receives modal line [i], when that row is on screen. *)
Definition overlayRow (dimmedBg paddedModalLines : list string)
           (startRow startCol terminalWidth terminalHeight : Z)
           (result : list string) (i : nat) : list string :=
  let row := startRow + Z.of_nat i in
  if (0 <=? row) && (row <? terminalHeight) then
    <[ Z.to_nat row :=
         overlayLineAt (Js.lineAt dimmedBg (Z.to_nat row))
                       (Js.lineAt paddedModalLines i)
                       startCol terminalWidth ]> result
  else result.

(** [compositeModal(background, terminalWidth, terminalHeight)] *)
Definition compositeModal (t : TUI) (background : list string)
           (terminalWidth terminalHeight : Z) : Js.Result (list string) :=
  match modalState t with
  | None => Js.Ok background
  | Some ms =>
      let component := component ms in
      let options := options ms in
      paddedBg ←
        padLoop (Z.to_nat (terminalHeight - Z.of_nat (length background)))
                background terminalWidth;
      let dimmedBg := dimBg options paddedBg in
      let modalWidth := modalWidthOf options terminalWidth in
      let modalLines := objects t component modalWidth in
      let paddedModalLines := map (fun line => padToWidth line modalWidth) modalLines in
      let modalHeight := Z.of_nat (length paddedModalLines) in
      let startRow := startRowOf terminalHeight modalHeight in
      let startCol := startColOf terminalWidth modalWidth in
      Js.Ok (fold_left
               (overlayRow dimmedBg paddedModalLines startRow startCol
                           terminalWidth terminalHeight)
               (seq 0 (length paddedModalLines)) dimmedBg)
  end.

(** The first statements of [doRender]: render the tree and, when a
    modal is active, composite it on top. *)
Definition newFrame (t : TUI) : Js.Result (list string) :=
  let width := columns (terminal t) in
  let height := rows (terminal t) in
  let newLines := Container.render t width in
  match modalState t with
  | Some _ => compositeModal t newLines width height
  | None => Js.Ok newLines
  end.

(** The loop shared by the three whole-frame branches:
    [for (i = 0; i < newLines.length; i++)
       { if (i > 0) buffer += "\r\n"; buffer += newLines[i]; }] *)
Fixpoint emitLines (i : nat) (lines : list string) (buffer : string) : string :=
  match lines with
  | [] => buffer
  | line :: rest =>
      let buffer := if (0 <? i)%nat then buffer +:+ Ansi.CRLF else buffer in
      emitLines (S i) rest (buffer +:+ line)
  end.

(** The buffer of the first-render branch. *)
Definition firstRenderBuffer (newLines : list string) : string :=
  emitLines 0 newLines Ansi.SYNC_BEGIN +:+ Ansi.SYNC_END.

(** The buffer of both full re-render branches. *)
Definition fullRenderBuffer (newLines : list string) : string :=
  emitLines 0 newLines (Ansi.SYNC_BEGIN +:+ Ansi.CLEAR_ALL) +:+ Ansi.SYNC_END.

(** The body of the loop that looks for the first changed line. *)
Definition firstChangedStep (previousLines newLines : list string)
           (firstChanged : Z) (i : nat) : Z :=
  let oldLine := Js.lineAt previousLines i in
  let newLine := Js.lineAt newLines i in
  if negb (String.eqb oldLine newLine) then
    if firstChanged =? -1 then Z.of_nat i else firstChanged
  else firstChanged.

(** [let firstChanged = -1; for (i = 0; i < maxLines; i++) ...] *)
Definition findFirstChanged (previousLines newLines : list string) : Z :=
  let maxLines := Nat.max (length newLines) (length previousLines) in
  fold_left (firstChangedStep previousLines newLines) (seq 0 maxLines) (-1).

(** The rewrite loop of the incremental branch, from line [i] on;
    [lines] are the lines of the new frame from index [i]. *)
Fixpoint rewriteLines (width firstChanged : Z) (i : Z) (lines : list string)
         (buffer : string) : Js.Result string :=
  match lines with
  | [] => Js.Ok buffer
  | line :: rest =>
      let buffer := if firstChanged <? i then buffer +:+ Ansi.CRLF else buffer in
      let buffer := buffer +:+ Ansi.CLEAR_LINE in
      let isImageLine := containsImage line in
      if negb isImageLine && (width <? visibleWidth line) then
        Js.Throw (Js.RenderedLineExceeds i)
      else rewriteLines width firstChanged (i + 1) rest (buffer +:+ line)
  end.

(** The [for (i = newLines.length; i < previousLines.length; i++)] loop. *)
Fixpoint clearExtra (n : nat) (buffer : string) : string :=
  match n with
  | O => buffer
  | S n' => clearExtra n' (buffer +:+ Ansi.CRLF +:+ Ansi.CLEAR_LINE)
  end.

(** The buffer of the incremental branch (everything after the viewport
    test), or the exception raised while building it. *)
Definition incrementalBuffer (previousLines newLines : list string)
           (width cursorRow firstChanged : Z) : Js.Result string :=
  let buffer := Ansi.SYNC_BEGIN in
  let lineDiff := firstChanged - cursorRow in
  let buffer :=
    if 0 <? lineDiff then buffer +:+ Ansi.DOWN lineDiff
    else if lineDiff <? 0 then buffer +:+ Ansi.UP (- lineDiff)
    else buffer in
  let buffer := buffer +:+ Ansi.CR in
  buffer ← rewriteLines width firstChanged firstChanged
             (drop (Z.to_nat firstChanged) newLines) buffer;
  let buffer :=
    if (length newLines <? length previousLines)%nat then
      let extraLines := Z.of_nat (length previousLines) - Z.of_nat (length newLines) in
      clearExtra (length previousLines - length newLines) buffer +:+ Ansi.UP extraLines
    else buffer in
  Js.Ok (buffer +:+ Ansi.SYNC_END).

(** The common tail of every writing branch:
    [terminal.write(buffer); cursorRow = newLines.length - 1;
     previousLines = newLines; previousWidth = width]. *)
Definition commit (buffer : string) (newLines : list string) (width : Z) (t : TUI) : TUI :=
  let t := terminal_write buffer t in
  let t := set_cursorRow (Z.of_nat (length newLines) - 1) t in
  let t := set_previousLines newLines t in
  set_previousWidth width t.

(** How a call ended. *)
Inductive Outcome : Type :=
| Returned
| Thrown (e : Js.Exception).

(** [doRender()]: the state it leaves and how it ended.  No field is
    assigned before the only [throw], so an aborted pass leaves the state
    it found.  The diagnostic file written just before the [throw] lies
    outside the state kept here. *)
Definition doRender (t : TUI) : TUI * Outcome :=
  let width := columns (terminal t) in
  let height := rows (terminal t) in
  match newFrame t with
  | Js.Throw e => (t, Thrown e)
  | Js.Ok newLines =>
      let widthChanged :=
        negb (previousWidth t =? 0) && negb (previousWidth t =? width) in
      let lineCountChanged :=
        negb (length (previousLines t) =? 0)%nat
        && negb (length (previousLines t) =? length newLines)%nat in
      if (length (previousLines t) =? 0)%nat then
        (commit (firstRenderBuffer newLines) newLines width t, Returned)
      else if widthChanged || lineCountChanged then
        (commit (fullRenderBuffer newLines) newLines width t, Returned)
      else
        let firstChanged := findFirstChanged (previousLines t) newLines in
        if firstChanged =? -1 then (t, Returned)
        else
          let viewportTop := cursorRow t - height + 1 in
          if firstChanged <? viewportTop then
            (commit (fullRenderBuffer newLines) newLines width t, Returned)
          else
            match incrementalBuffer (previousLines t) newLines width
                                    (cursorRow t) firstChanged with
            | Js.Throw e => (t, Thrown e)
            | Js.Ok buffer => (commit buffer newLines width t, Returned)
            end
  end.

(** The callback queued by [requestRender]:
    [this.renderRequested = false; this.doRender()]. *)
Definition runTick (t : TUI) : TUI * Outcome :=
  doRender (set_renderRequested false t).

End Render.

(** ** Runs of the orchestrator *)

(** [new TUI(terminal)], over a store of component objects. *)
Definition initial (tm : Terminal) (objs : Component -> Z -> list string) : TUI :=
  mkTUI objs [] tm [] 0 None false 0 "" false None.

(** What can happen to an orchestrator between two observations: a call
    of a public method, a resize reported by the terminal (its callback
    is [requestRender]), a change of what the component objects render,
    or the cooperative tick running the queued render.  Input delivered
    to the focused component shows here as a [Mutate] followed by a
    [RequestRender]. *)
Inductive Op : Type :=
| AddChild (c : Component)
| RemoveChild (c : Component)
| Clear
| SetFocus (c : option Component)
| ShowModal (c : Component) (o : ModalOptions)
| HideModal
| FullRefresh
| RequestRender
| Resize (cols rws : Z)
| Mutate (objs : Component -> Z -> list string)
| Start (images : bool)
| Tick.

Section Runs.

Context {U : Utils}.

Definition applyOp (op : Op) (t : TUI) : TUI :=
  match op with
  | AddChild c => Container.addChild c t
  | RemoveChild c => Container.removeChild c t
  | Clear => Container.clear t
  | SetFocus c => setFocus c t
  | ShowModal c o => showModal c o t
  | HideModal => hideModal t
  | FullRefresh => fullRefresh t
  | RequestRender => requestRender t
  | Resize cols rws =>
      requestRender (set_terminal (mkTerminal cols rws (written (terminal t))) t)
  | Mutate objs => set_objects objs t
  | Start images => start images t
  | Tick => if renderRequested t then fst (runTick t) else t
  end.

Definition run (ops : list Op) (t : TUI) : TUI :=
  fold_left (fun t op => applyOp op t) ops t.

Definition isTick (op : Op) : bool :=
  match op with Tick => true | _ => false end.

End Runs.

(** ** A reference instance of the text helpers *)

Module Plain.

(** Modelled from the spec: [utils.js] is not part of the sources at
    hand.  On a line made only of printable single-column ASCII, with no
    control codes, the visible width is the number of characters. *)
Definition visibleWidth (line : string) : Z := Z.of_nat (String.length line).

(** Modelled from the spec: pads a line with blanks to exactly the
    given width. *)
Definition padToWidth (line : string) (w : Z) : string :=
  line +:+ String.concat "" (replicate (Z.to_nat (w - visibleWidth line)) " "%string).

(** Modelled from the spec: replaces the characters of the base line in
    the column range of the overlay, leaving the rest untouched. *)
Definition overlayLineAt (base overlay : string) (col totalWidth : Z) : string :=
  let base := padToWidth base totalWidth in
  let c := Z.to_nat col in
  let n := String.length overlay in
  String.substring 0 c base +:+ overlay
  +:+ String.substring (c + n) (String.length base - (c + n)) base.

(** Modelled from the spec: a dimming transform of a line (SGR 2 around it). *)
Definition dimLine (line : string) : string :=
  Ansi.CSI "2m" +:+ line +:+ Ansi.CSI "22m".

Definition utils : Utils :=
  Build_Utils visibleWidth padToWidth overlayLineAt dimLine.

End Plain.

(** ** Patch shapes and sample states used in the theorems *)

(** [s.endsWith(suffix)] *)
Fixpoint endsWith (s suffix : string) : bool :=
  String.eqb s suffix
  || match s with
     | EmptyString => false
     | String _ rest => endsWith rest suffix
     end.

Section Shapes.

Context {U : Utils}.

(** What the last statements of the incremental branch append when the
    previous frame is longer: one line clear per orphaned row, then the
    walk back up, then the end marker. *)
Definition shrinkTail (previousLines newLines : list string) : string :=
  clearExtra (length previousLines - length newLines) ""
  +:+ Ansi.UP (Z.of_nat (length previousLines) - Z.of_nat (length newLines))
  +:+ Ansi.SYNC_END.

(** A patch that clears the orphaned trailing lines and walks the cursor
    back up. *)
Definition ClearsOrphansAndWalksBack
           (previousLines newLines : list string) (patch : string) : Prop :=
  exists buffer : string, patch = buffer +:+ shrinkTail previousLines newLines.

(** A frame has a line that breaks the width contract. *)
Definition HasOverwideLine (newLines : list string) (width : Z) : Prop :=
  exists line : string,
    In line newLines /\ containsImage line = false /\ width < visibleWidth line.

(** The cursor sits on the last row of the baseline, whenever there is
    a baseline. *)
Definition CursorOnLastRow (t : TUI) : Prop :=
  previousLines t = []
  \/ cursorRow t = Z.of_nat (length (previousLines t)) - 1.

End Shapes.

Module Sample.

Definition opts : ModalOptions := mkModalOptions None None.

(** A store where every object renders the given lines at any width. *)
Definition always (lines : list string) : Component -> Z -> list string :=
  fun _ _ => lines.

(** An orchestrator with one child rendering [new], baseline [prev]
    rendered at width [pw] with the cursor on row [cr], on a terminal of
    [w] columns and [h] rows. *)
Definition state (prev new : list string) (pw w h cr : Z) : TUI :=
  mkTUI (always new) [0%nat] (mkTerminal w h []) prev pw None false cr "" false None.

(** Five lines on screen, three different lines to draw. *)
Definition shrink : TUI :=
  state ["a"; "b"; "c"; "d"; "e"]%string ["x"; "y"; "z"]%string 80 80 24 4.

(** Two lines on screen on four columns; the first one changes and the
    second one, five columns wide, is rewritten after it. *)
Definition overwideIncremental : TUI :=
  state ["a"; "hello"]%string ["b"; "hello"]%string 4 4 24 1.

(** A fresh orchestrator without children after its first render pass. *)
Definition emptyRendered : TUI :=
  @run Plain.utils [RequestRender; Tick]
       (initial (mkTerminal 80 24 []) (always [])).

(** Two lines on screen and the very same two lines to draw. *)
Definition unchanged : TUI :=
  state ["a"; "b"]%string ["a"; "b"]%string 80 80 24 1.

(** Four lines on screen of a terminal two rows high; the first line,
    scrolled out of view, changes. *)
Definition scrolled : TUI :=
  state ["a"; "b"; "c"; "d"]%string ["X"; "b"; "c"; "d"]%string 80 80 2 3.

(** Nothing on screen yet, one five-column line to draw on four columns. *)
Definition overwideFirst : TUI :=
  state [] ["hello"]%string 0 4 24 0.

(** A fresh orchestrator without children on an 80x24 terminal. *)
Definition fresh : TUI := initial (mkTerminal 80 24 []) (always []).

(** A modal of three lines, ten columns wide, over a 40x10 terminal. *)
Definition modal3 : TUI :=
  mkTUI (always ["0123456789"; "abc"; "x"]%string) [] (mkTerminal 40 10 []) [] 0
        None false 0 "" false
        (Some (mkModalState 7%nat (mkModalOptions (Some 10) (Some false)) None)).

End Sample.

(** ** [class Modal] ([components/modal.ts])

    The component that draws the modal box: children in a padded area,
    an optional header and an optional border.  Box-drawing characters
    are kept as the bytes of their UTF-8 encoding; the code only
    concatenates and repeats them. *)

Module Modal.

(** [interface ModalTheme] *)
Record Theme : Type := mkTheme {
  border : string -> string;
  background : string -> string;
  title : string -> string;
  closeHint : string -> string;
  separator : option (string -> string)
}.

(** [interface ModalComponentOptions], every property optional. *)
Record ComponentOptions : Type := mkComponentOptions {
  optTitle : option string;
  optCloseHint : option string;
  optShowHeader : option bool;
  optShowBorder : option bool;
  optPaddingX : option Z;
  optPaddingY : option Z;
  optShowSeparator : option bool
}.

(** [this.options] after the constructor has spread the given options
    over the defaults. *)
Record Options : Type := mkOptions {
  titleText : option string;
  closeHintText : option string;
  showHeader : bool;
  showBorder : bool;
  paddingX : Z;
  paddingY : Z;
  showSeparator : bool
}.

Record t : Type := mkModal {
  children : list Component;
  focusedChildIndex : nat;
  theme : Theme;
  options : Options
}.

(** [new Modal(theme, options)] *)
Definition create (th : Theme) (o : ComponentOptions) : t :=
  mkModal [] 0 th
          (mkOptions (optTitle o) (optCloseHint o)
                     (default true (optShowHeader o))
                     (default false (optShowBorder o))
                     (default 2 (optPaddingX o))
                     (default 1 (optPaddingY o))
                     (default true (optShowSeparator o))).

(** [children.indexOf(child)], [None] standing for [-1]. *)
Fixpoint indexOf (c : Component) (cs : list Component) : option nat :=
  match cs with
  | [] => None
  | x :: rest => if Nat.eqb x c then Some 0%nat else S <$> indexOf c rest
  end.

Definition addChild (child : Component) (m : t) : t :=
  mkModal (children m ++ [child]) (focusedChildIndex m) (theme m) (options m).

Definition removeChild (child : Component) (m : t) : t :=
  match indexOf child (children m) with
  | None => m
  | Some index =>
      let cs := delete index (children m) in
      let focused :=
        if (length cs <=? focusedChildIndex m)%nat
        then Nat.max 0 (length cs - 1)
        else focusedChildIndex m in
      mkModal cs focused (theme m) (options m)
  end.

Definition clear (m : t) : t := mkModal [] 0 (theme m) (options m).

Definition setFocusedChild (child : Component) (m : t) : t :=
  match indexOf child (children m) with
  | None => m
  | Some index => mkModal (children m) index (theme m) (options m)
  end.

(** [this.children[this.focusedChildIndex] ?? null] *)
Definition getFocusedChild (m : t) : option Component :=
  children m !! focusedChildIndex m.

Definition setTitle (s : string) (m : t) : t :=
  let o := options m in
  mkModal (children m) (focusedChildIndex m) (theme m)
          (mkOptions (Some s) (closeHintText o) (showHeader o) (showBorder o)
                     (paddingX o) (paddingY o) (showSeparator o)).

Definition setCloseHint (s : string) (m : t) : t :=
  let o := options m in
  mkModal (children m) (focusedChildIndex m) (theme m)
          (mkOptions (titleText o) (Some s) (showHeader o) (showBorder o)
                     (paddingX o) (paddingY o) (showSeparator o)).

(** The calls that change a modal box. *)
Inductive Op : Type :=
| AddChild (c : Component)
| RemoveChild (c : Component)
| Clear
| SetFocusedChild (c : Component)
| SetTitle (s : string)
| SetCloseHint (s : string).

Definition applyOp (op : Op) (m : t) : t :=
  match op with
  | AddChild c => addChild c m
  | RemoveChild c => removeChild c m
  | Clear => clear m
  | SetFocusedChild c => setFocusedChild c m
  | SetTitle s => setTitle s m
  | SetCloseHint s => setCloseHint s m
  end.

Definition run (ops : list Op) (m : t) : t :=
  fold_left (fun m op => applyOp op m) ops m.

(** The focus index points at a child, or is zero when there is none. *)
Definition FocusValid (m : t) : Prop :=
  (focusedChildIndex m < length (children m))%nat
  \/ (children m = [] /\ focusedChildIndex m = 0%nat).

Section Rendering.

Context {U : Utils}.

(** [contentWidth] of [render(width)] *)
Definition contentWidthOf (o : Options) (w : Z) : Z :=
  let borderWidth := if showBorder o then 2 else 0 in
  let horizontalPadding := paddingX o * 2 in
  Z.max 1 (w - borderWidth - horizontalPadding).

(** The local helper [makeLine(content)] *)
Definition makeLine (m : t) (contentWidth : Z) (content : string) : Js.Result string :=
  padding ← Js.repeat " " (paddingX (options m));
  let paddedContent := padding +:+ padToWidth content contentWidth +:+ padding in
  if showBorder (options m) then
    Js.Ok (border (theme m) "│" +:+ background (theme m) paddedContent
           +:+ border (theme m) "│")
  else Js.Ok (background (theme m) paddedContent).

(** [for (const c of contents) result.push(makeLine(c))] *)
Fixpoint pushLines (m : t) (contentWidth : Z) (contents : list string)
         (result : list string) : Js.Result (list string) :=
  match contents with
  | [] => Js.Ok result
  | c :: rest =>
      line ← makeLine m contentWidth c;
      pushLines m contentWidth rest (result ++ [line])
  end.

(** The two [for (let i = 0; i < paddingY; i++)] loops. *)
Definition pushPadding (m : t) (contentWidth : Z) (result : list string)
  : Js.Result (list string) :=
  pushLines m contentWidth (replicate (Z.to_nat (paddingY (options m))) ""%string) result.

(** The [if (showHeader)] block. *)
Definition pushHeader (m : t) (contentWidth : Z) (result : list string)
  : Js.Result (list string) :=
  let o := options m in
  if showHeader o then
    let title := default ""%string (titleText o) in
    let hint := default "esc"%string (closeHintText o) in
    let titleStyled := Modal.title (theme m) title in
    let hintStyled := closeHint (theme m) hint in
    let titleWidth := visibleWidth title in
    let hintWidth := visibleWidth hint in
    let spacingNeeded := Z.max 1 (contentWidth - titleWidth - hintWidth) in
    spacing ← Js.repeat " " spacingNeeded;
    let headerContent := titleStyled +:+ spacing +:+ hintStyled in
    header ← makeLine m contentWidth headerContent;
    let result := result ++ [header] in
    if showSeparator o then
      separatorLine ← Js.repeat "─" contentWidth;
      let separatorStyled :=
        match separator (theme m) with
        | Some f => f separatorLine
        | None => border (theme m) separatorLine
        end in
      line ← makeLine m contentWidth separatorStyled;
      Js.Ok (result ++ [line])
    else Js.Ok result
  else Js.Ok result.

(** The top and bottom border lines. *)
Definition pushBorder (m : t) (w : Z) (left right : string) (result : list string)
  : Js.Result (list string) :=
  if showBorder (options m) then
    let innerWidth := w - 2 in
    bar ← Js.repeat "─" innerWidth;
    Js.Ok (result ++ [border (theme m) (left +:+ bar +:+ right)])
  else Js.Ok result.

(** The lines of all children, rendered at the content width. *)
Definition childLinesOf (objs : Component -> Z -> list string) (m : t)
           (contentWidth : Z) : list string :=
  fold_left (fun lines child => lines ++ objs child contentWidth) (children m) [].

(** [render(width)] *)
Definition render (objs : Component -> Z -> list string) (m : t) (w : Z)
  : Js.Result (list string) :=
  let contentWidth := contentWidthOf (options m) w in
  result ← pushBorder m w "┌" "┐" [];
  result ← pushPadding m contentWidth result;
  result ← pushHeader m contentWidth result;
  result ← pushLines m contentWidth (childLinesOf objs m contentWidth) result;
  result ← pushPadding m contentWidth result;
  pushBorder m w "└" "┘" result.

End Rendering.

End Modal.

(** ** [class FullScreenBox]

    A container that fills the terminal height and caches its last
    rendering.  [getTerminalHeight()] is read once per [render]; its
    value at that moment is the [terminalHeight] argument here. *)

Module FullScreenBox.

Definition LF : string := String (ascii_of_nat 10) EmptyString.

Record t : Type := mkBox {
  children : list Component;
  paddingX : Z;
  paddingY : Z;
  bgFn : option (string -> string);
  cachedWidth : option Z;
  cachedHeight : option Z;
  cachedChildLines : option string;
  cachedBgSample : option string;
  cachedLines : option (list string)
}.

(** [new FullScreenBox(getTerminalHeight, paddingX = 0, paddingY = 0, bgFn)] *)
Definition create (px py : option Z) (bg : option (string -> string)) : t :=
  mkBox [] (default 0 px) (default 0 py) bg None None None None None.

Definition invalidateCache (b : t) : t :=
  mkBox (children b) (paddingX b) (paddingY b) (bgFn b) None None None None None.

Definition set_children (cs : list Component) (b : t) : t :=
  mkBox cs (paddingX b) (paddingY b) (bgFn b) (cachedWidth b) (cachedHeight b)
        (cachedChildLines b) (cachedBgSample b) (cachedLines b).

Definition addChild (c : Component) (b : t) : t :=
  invalidateCache (set_children (children b ++ [c]) b).

Definition removeChild (c : Component) (b : t) : t :=
  match Modal.indexOf c (children b) with
  | None => b
  | Some index => invalidateCache (set_children (delete index (children b)) b)
  end.

Definition clear (b : t) : t := invalidateCache (set_children [] b).

Definition setBgFn (bg : option (string -> string)) (b : t) : t :=
  invalidateCache
    (mkBox (children b) (paddingX b) (paddingY b) bg (cachedWidth b) (cachedHeight b)
           (cachedChildLines b) (cachedBgSample b) (cachedLines b)).

(** [invalidate()]: the box's own part; the children's caches are theirs. *)
Definition invalidate (b : t) : t := invalidateCache b.

(** [cached === value] for a field that is [undefined] or a number. *)
Definition sameNumber (cached : option Z) (value : Z) : bool :=
  match cached with
  | Some c => c =? value
  | None => false
  end.

(** [a === b] for two values that are [undefined] or strings. *)
Definition sameString (a b : option string) : bool :=
  match a, b with
  | Some x, Some y => String.eqb x y
  | None, None => true
  | _, _ => false
  end.

Fixpoint hasLineFeed (s : string) : bool :=
  match s with
  | EmptyString => false
  | String c rest => Ascii.eqb c (ascii_of_nat 10) || hasLineFeed rest
  end.

(** Child lines that [join("\n")] tells apart from every other such
    list: no line holds a line feed, and the list is not the single empty
    line (which joins to the same key as no line at all). *)
Definition Keyable (childLines : list string) : Prop :=
  Forall (fun line => hasLineFeed line = false) childLines
  /\ childLines <> [""%string].

Section Rendering.

Context {U : Utils}.

(** [applyBackgroundToLine] of [utils.js]. *)
Variable applyBackgroundToLine : string -> Z -> (string -> string) -> string.

(** [" ".repeat(count)] for a count that is not negative. *)
Definition blanks (count : Z) : string :=
  String.concat "" (replicate (Z.to_nat count) " "%string).

(** [applyBg(line, width)] *)
Definition applyBg (b : t) (line : string) (w : Z) : string :=
  let visLen := visibleWidth line in
  let padNeeded := Z.max 0 (w - visLen) in
  let padded := line +:+ blanks padNeeded in
  match bgFn b with
  | Some f => applyBackgroundToLine padded w f
  | None => padded
  end.

(** A counting loop that pushes the same line [n] times. *)
Fixpoint pushTimes (n : nat) (line : string) (result : list string) : list string :=
  match n with
  | O => result
  | S n' => pushTimes n' line (result ++ [line])
  end.

(** The lines of all children at the content width, each behind the
    left padding. *)
Definition childLinesOf (objs : Component -> Z -> list string) (b : t)
           (contentWidth : Z) (leftPad : string) : list string :=
  fold_left
    (fun childLines child =>
       childLines ++ map (fun line => leftPad +:+ line) (objs child contentWidth))
    (children b) [].

(** The part of [render] that builds the result when the cache does not
    serve: padding, content, padding, fill up to the target height, and
    the final safety loop. *)
Definition buildLines (b : t) (childLines : list string) (w terminalHeight : Z)
  : list string :=
  let contentHeight := Z.of_nat (length childLines) + paddingY b * 2 in
  let targetHeight := Z.max contentHeight terminalHeight in
  let blank := applyBg b "" w in
  let result := pushTimes (Z.to_nat (paddingY b)) blank [] in
  let result := fold_left (fun r line => r ++ [applyBg b line w]) childLines result in
  let result := pushTimes (Z.to_nat (paddingY b)) blank result in
  let remainingLines := targetHeight - Z.of_nat (length result) in
  let result := pushTimes (Z.to_nat remainingLines) blank result in
  pushTimes (Z.to_nat (terminalHeight - Z.of_nat (length result))) blank result.

(** [render(width)]: the box afterwards (its cache may be refreshed) and
    the lines returned. *)
Definition render (objs : Component -> Z -> list string) (b : t)
           (terminalHeight w : Z) : Js.Result (t * list string) :=
  let contentWidth := Z.max 1 (w - paddingX b * 2) in
  leftPad ← Js.repeat " " (paddingX b);
  let childLines := childLinesOf objs b contentWidth leftPad in
  let bgSample := (fun f => f "test"%string) <$> bgFn b in
  let childLinesKey := String.concat LF childLines in
  let rebuilt :=
    let result := buildLines b childLines w terminalHeight in
    Js.Ok (mkBox (children b) (paddingX b) (paddingY b) (bgFn b)
                 (Some w) (Some terminalHeight) (Some childLinesKey) bgSample
                 (Some result),
           result) in
  match cachedLines b with
  | Some lines =>
      if sameNumber (cachedWidth b) w
         && sameNumber (cachedHeight b) terminalHeight
         && sameString (cachedChildLines b) (Some childLinesKey)
         && sameString (cachedBgSample b) bgSample
      then Js.Ok (b, lines)
      else rebuilt
  | None => rebuilt
  end.

(** What the cache holds was built by this box from keyable child
    lines, at the width, height and background sample it is filed
    under. *)
Definition CacheSound (b : t) : Prop :=
  forall lines, cachedLines b = Some lines ->
    exists w h childLines,
      cachedWidth b = Some w
      /\ cachedHeight b = Some h
      /\ cachedChildLines b = Some (String.concat LF childLines)
      /\ Keyable childLines
      /\ lines = buildLines b childLines w h.

End Rendering.

End FullScreenBox.

(** ** Input routing and the cell-size response ([TUI.handleInput],
    [TUI.parseCellSizeResponse])

    A string is read as its sequence of code units.  The two regular
    expressions of [parseCellSizeResponse] are matched by hand:
    [/\x1b\[6;(\d+);(\d+)t/] has at most one match at a given start
    (a run of digits is followed by a non-digit or nothing), and the first
    match is the one at the leftmost start. *)

Module Input.

(** [/\d/] *)
Definition isDigit (c : ascii) : bool :=
  (48 <=? nat_of_ascii c)%nat && (nat_of_ascii c <=? 57)%nat.

(** The longest run of digits at the front, and what follows it. *)
Fixpoint takeDigits (s : string) : string * string :=
  match s with
  | EmptyString => (EmptyString, EmptyString)
  | String c rest =>
      if isDigit c then
        let '(digits, after) := takeDigits rest in (String c digits, after)
      else (EmptyString, s)
  end.

(** What follows the prefix [p] in [s], when [s] starts with [p]. *)
Fixpoint stripPrefix (p s : string) : option string :=
  match p, s with
  | EmptyString, _ => Some s
  | String a p', String b s' => if Ascii.eqb a b then stripPrefix p' s' else None
  | String _ _, EmptyString => None
  end.

(** ["\x1b[6;"] *)
Definition INTRO : string := Ansi.CSI "6;".

(** [(\d+)] *)
Definition digits1 (s : string) : option (string * string) :=
  match takeDigits s with
  | (EmptyString, _) => None
  | (d, after) => Some (d, after)
  end.

(** A match of the response pattern starting at the front of [s]: the
    two groups and what follows the match. *)
Definition matchAt (s : string) : option (string * string * string) :=
  rest ← stripPrefix INTRO s;
  '(height, rest) ← digits1 rest;
  rest ← stripPrefix ";" rest;
  '(width, rest) ← digits1 rest;
  rest ← stripPrefix "t" rest;
  Some (height, width, rest).

(** [inputBuffer.match(responsePattern)]: what precedes the first match,
    its two groups, and what follows it. *)
Fixpoint findResponse (s : string) : option (string * string * string * string) :=
  match matchAt s with
  | Some (height, width, after) => Some (EmptyString, height, width, after)
  | None =>
      match s with
      | EmptyString => None
      | String c rest =>
          '(before, height, width, after) ← findResponse rest;
          Some (String c before, height, width, after)
      end
  end.

Fixpoint allDigitsOrSemicolons (s : string) : bool :=
  match s with
  | EmptyString => true
  | String c rest =>
      (isDigit c || Ascii.eqb c ";"%char) && allDigitsOrSemicolons rest
  end.

(** [/\x1b\[6;[\d;]*$/.test(s)] *)
Fixpoint hasPartial (s : string) : bool :=
  match stripPrefix INTRO s with
  | Some rest => allDigitsOrSemicolons rest
  | None => false
  end
  || match s with
     | EmptyString => false
     | String _ rest => hasPartial rest
     end.

(** [s.lastIndexOf("\x1b")], [None] standing for [-1]. *)
Fixpoint lastIndexOfEsc (s : string) : option nat :=
  match s with
  | EmptyString => None
  | String c rest =>
      match lastIndexOfEsc rest with
      | Some i => Some (S i)
      | None => if Ascii.eqb c (ascii_of_nat 27) then Some 0%nat else None
      end
  end.

(** [s.substring(0, n)] and [s.substring(n)] for [0 <= n]. *)
Fixpoint substringTo (n : nat) (s : string) : string :=
  match n, s with
  | S n', String c rest => String c (substringTo n' rest)
  | _, _ => EmptyString
  end.

Fixpoint substringFrom (n : nat) (s : string) : string :=
  match n, s with
  | S n', String _ rest => substringFrom n' rest
  | _, _ => s
  end.

(** [parseInt(group, 10) > 0] for a group of digits. *)
Fixpoint positive (digits : string) : bool :=
  match digits with
  | EmptyString => false
  | String c rest => negb (Ascii.eqb c "0"%char) || positive rest
  end.

(** A string made of digits only. *)
Fixpoint allDigits (s : string) : bool :=
  match s with
  | EmptyString => true
  | String c rest => isDigit c && allDigits rest
  end.

(** A string that holds an escape character. *)
Fixpoint hasEsc (s : string) : bool :=
  match s with
  | EmptyString => false
  | String c rest => Ascii.eqb c (ascii_of_nat 27) || hasEsc rest
  end.

Definition set_inputBuffer (s : string) (t : TUI) : TUI :=
  mkTUI (objects t) (children t) (terminal t) (previousLines t) (previousWidth t)
        (focusedComponent t) (renderRequested t) (cursorRow t)
        s (cellSizeQueryPending t) (modalState t).

(** The result of [parseCellSizeResponse()]: the string returned, the
    state left, and the two groups handed to [setCellDimensions] (width
    first) when the response carried positive sizes, after which the
    components are invalidated. *)
Record Parsed : Type := mkParsed {
  filtered : string;
  after : TUI;
  cellDimensions : option (string * string)
}.

Definition parseCellSizeResponse (t : TUI) : Parsed :=
  let '(t, dims) :=
    match findResponse (inputBuffer t) with
    | Some (before, height, width, rest) =>
        let '(t, dims) :=
          if positive height && positive width
          then (requestRender t, Some (width, height))
          else (t, None) in
        let t := set_inputBuffer (before +:+ rest) t in
        (set_cellSizeQueryPending false t, dims)
    | None => (t, None)
    end in
  if hasPartial (inputBuffer t) then mkParsed "" t dims
  else
    match lastIndexOfEsc (inputBuffer t) with
    | Some escIndex =>
        if Z.of_nat (String.length (inputBuffer t)) - 10 <? Z.of_nat escIndex then
          let before := substringTo escIndex (inputBuffer t) in
          mkParsed before
                   (set_inputBuffer (substringFrom escIndex (inputBuffer t)) t) dims
        else
          mkParsed (inputBuffer t)
                   (set_cellSizeQueryPending false (set_inputBuffer "" t)) dims
    | None =>
        mkParsed (inputBuffer t)
                 (set_cellSizeQueryPending false (set_inputBuffer "" t)) dims
    end.

(** The result of [handleInput(data)]: the state left, the component
    whose [handleInput] is called and with what, and the cell dimensions
    set on the way.  [hasHandler c] tells whether component [c] defines
    [handleInput]. *)
Record Handled : Type := mkHandled {
  state : TUI;
  delivered : option (Component * string);
  dimensions : option (string * string)
}.

Definition route (hasHandler : Component -> bool) (data : string) (t : TUI)
           (dims : option (string * string)) : Handled :=
  match focusedComponent t with
  | Some c =>
      if hasHandler c then mkHandled (requestRender t) (Some (c, data)) dims
      else mkHandled t None dims
  | None => mkHandled t None dims
  end.

Definition handleInput (hasHandler : Component -> bool) (data : string) (t : TUI)
  : Handled :=
  if cellSizeQueryPending t then
    let t := set_inputBuffer (inputBuffer t +:+ data) t in
    let p := parseCellSizeResponse t in
    if (String.length (filtered p) =? 0)%nat then
      mkHandled (after p) None (cellDimensions p)
    else route hasHandler (filtered p) (after p) (cellDimensions p)
  else route hasHandler data t None.

End Input.

(** ** The calls into components left open

    In [doRender] and [compositeModal] the lines of a component come
    from a call of its [render] method, which may also throw or change
    the component.  The two definitions below are the same code with
    that call left open: they take what the call gave, lines or an
    exception, instead of reading the store. *)

Section OpenCalls.

Context {U : Utils}.

(** [compositeModal], given what [component.render(modalWidth)] does
    for each component and width.  The padding loop runs before the
    call. *)
Definition compositeModalCalling
           (render : Component -> Z -> Js.Result (list string))
           (t : TUI) (background : list string)
           (terminalWidth terminalHeight : Z) : Js.Result (list string) :=
  match modalState t with
  | None => Js.Ok background
  | Some ms =>
      let component := component ms in
      let options := options ms in
      paddedBg ←
        padLoop (Z.to_nat (terminalHeight - Z.of_nat (length background)))
                background terminalWidth;
      let dimmedBg := dimBg options paddedBg in
      let modalWidth := modalWidthOf options terminalWidth in
      modalLines ← render component modalWidth;
      let paddedModalLines := map (fun line => padToWidth line modalWidth) modalLines in
      let modalHeight := Z.of_nat (length paddedModalLines) in
      let startRow := startRowOf terminalHeight modalHeight in
      let startCol := startColOf terminalWidth modalWidth in
      Js.Ok (fold_left
               (overlayRow dimmedBg paddedModalLines startRow startCol
                           terminalWidth terminalHeight)
               (seq 0 (length paddedModalLines)) dimmedBg)
  end.

(** [doRender], given what its first statements (rendering the tree and
    compositing the modal) gave: the new frame, or the exception a
    component raised. *)
Definition doRenderGiven (frame : Js.Result (list string)) (t : TUI)
  : TUI * Outcome :=
  let width := columns (terminal t) in
  let height := rows (terminal t) in
  match frame with
  | Js.Throw e => (t, Thrown e)
  | Js.Ok newLines =>
      let widthChanged :=
        negb (previousWidth t =? 0) && negb (previousWidth t =? width) in
      let lineCountChanged :=
        negb (length (previousLines t) =? 0)%nat
        && negb (length (previousLines t) =? length newLines)%nat in
      if (length (previousLines t) =? 0)%nat then
        (commit (firstRenderBuffer newLines) newLines width t, Returned)
      else if widthChanged || lineCountChanged then
        (commit (fullRenderBuffer newLines) newLines width t, Returned)
      else
        let firstChanged := findFirstChanged (previousLines t) newLines in
        if firstChanged =? -1 then (t, Returned)
        else
          let viewportTop := cursorRow t - height + 1 in
          if firstChanged <? viewportTop then
            (commit (fullRenderBuffer newLines) newLines width t, Returned)
          else
            match incrementalBuffer (previousLines t) newLines width
                                    (cursorRow t) firstChanged with
            | Js.Throw e => (t, Thrown e)
            | Js.Ok buffer => (commit buffer newLines width t, Returned)
            end
  end.

End OpenCalls.

Section MoreShapes.

Context {U : Utils}.

(** A line that respects the width contract, or is exempt from it. *)
Definition fits (w : Z) (line : string) : Prop :=
  containsImage line = true \/ visibleWidth line <= w.

End MoreShapes.

(** Further sample states. *)

Module More.

(** Three lines on screen with the cursor on the last one; only the
    last line changes. *)
Definition lastLineChanged : TUI :=
  Sample.state ["a"; "b"; "c"]%string ["a"; "b"; "X"]%string 80 80 24 2.

(** Two lines drawn at 80 columns on a terminal that is now 100 wide. *)
Definition resized : TUI :=
  Sample.state ["a"; "b"]%string ["a"; "b"]%string 80 100 24 1.

(** A theme that leaves every text as it is. *)
Definition plainTheme : Modal.Theme :=
  Modal.mkTheme (fun s => s) (fun s => s) (fun s => s) (fun s => s) None.

Definition noOptions : Modal.ComponentOptions :=
  Modal.mkComponentOptions None None None None None None None.

(** A modal box with three children, the second one focused. *)
Definition box3 : Modal.t :=
  Modal.run [Modal.AddChild 1%nat; Modal.AddChild 2%nat; Modal.AddChild 3%nat;
             Modal.SetFocusedChild 2%nat]
            (Modal.create plainTheme noOptions).

(** The same box with a border. *)
Definition borderedBox : Modal.t :=
  Modal.addChild 1%nat
    (Modal.create plainTheme
       (Modal.mkComponentOptions (Some "Title"%string) None None (Some true)
                                 None None None)).

(** Modelled from the spec: [applyBackgroundToLine] of [utils.js] is not
    among the sources; this stand-in hands the whole padded line to the
    background function. *)
Definition applyBackground (line : string) (w : Z) (f : string -> string) : string :=
  f line.

(** A full-screen box with one child and one line of vertical padding. *)
Definition screenBox : FullScreenBox.t :=
  FullScreenBox.addChild 1%nat (FullScreenBox.create None (Some 1) None).

(** An orchestrator waiting for the cell-size response, focus on
    component 1. *)
Definition waiting : TUI :=
  mkTUI (Sample.always []) [1%nat] (mkTerminal 80 24 []) [] 0 (Some 1%nat)
        false 0 "" true None.

(** That box after one render on a terminal 6 rows high, at width 10,
    and the lines that render returned. *)
Definition screenBoxAfter : FullScreenBox.t :=
  match @FullScreenBox.render Plain.utils applyBackground
          (Sample.always ["one"; "two"]%string) screenBox 6 10 with
  | Js.Ok (b, _) => b
  | Js.Throw _ => screenBox
  end.

Definition screenBoxLines : list string :=
  match @FullScreenBox.render Plain.utils applyBackground
          (Sample.always ["one"; "two"]%string) screenBox 6 10 with
  | Js.Ok (_, lines) => lines
  | Js.Throw _ => []
  end.

(** The waiting orchestrator with a complete response in its buffer. *)
Definition answered : TUI :=
  Input.set_inputBuffer (Input.INTRO +:+ "20" +:+ ";" +:+ "10" +:+ "t") waiting.

(** A modal shown with default options on a terminal 11 columns wide
    and 5 rows high. *)
Definition narrowModal : TUI :=
  showModal 7%nat Sample.opts (initial (mkTerminal 11 5 []) (Sample.always [])).

End More.

(** * Properties *)

(** ** Strings *)

Lemma append_assoc (a b c : string) : (a +:+ b) +:+ c = a +:+ (b +:+ c).
Proof.
  induction a as [|ch a IH]; [reflexivity|].
  change (String ch ((a +:+ b) +:+ c) = String ch (a +:+ (b +:+ c))).
  now rewrite IH.
Qed.

Lemma append_nil_r (a : string) : a +:+ "" = a.
Proof.
  induction a as [|ch a IH]; [reflexivity|].
  change (String ch (a +:+ "") = String ch a). now rewrite IH.
Qed.

Lemma endsWith_append (a b : string) : endsWith (a +:+ b) b = true.
Proof.
  induction a as [|ch a IH].
  - change (endsWith b b = true).
    destruct b; cbn [endsWith]; rewrite String.eqb_refl; reflexivity.
  - change (endsWith (String ch (a +:+ b)) b = true).
    cbn [endsWith]. rewrite IH. apply orb_true_r.
Qed.

(** ** Field bookkeeping *)

Section Fields.

Context {U : Utils}.

Lemma commit_fields (buffer : string) (newLines : list string) (w : Z) (t : TUI) :
  written (terminal (commit buffer newLines w t)) = written (terminal t) ++ [buffer]
  /\ cursorRow (commit buffer newLines w t) = Z.of_nat (length newLines) - 1
  /\ previousLines (commit buffer newLines w t) = newLines
  /\ previousWidth (commit buffer newLines w t) = w.
Proof. repeat split; reflexivity. Qed.

Lemma requestRender_fields (t : TUI) :
  objects (requestRender t) = objects t
  /\ children (requestRender t) = children t
  /\ terminal (requestRender t) = terminal t
  /\ previousLines (requestRender t) = previousLines t
  /\ previousWidth (requestRender t) = previousWidth t
  /\ focusedComponent (requestRender t) = focusedComponent t
  /\ cursorRow (requestRender t) = cursorRow t
  /\ modalState (requestRender t) = modalState t
  /\ renderRequested (requestRender t) = true.
Proof. unfold requestRender. destruct (renderRequested t) eqn:E; repeat split; auto. Qed.

End Fields.

(** ** Modal focus *)

(** Where the restore of [hideModal] works: a component that was focused
    when the modal opened is focused again after [showModal m] then
    [hideModal], and the modal slot is empty. *)
Lemma hideModal_showModal_restores_component (t : TUI) (m c : Component)
      (o : ModalOptions) :
  focusedComponent t = Some c ->
  focusedComponent (hideModal (showModal m o t)) = Some c
  /\ modalState (hideModal (showModal m o t)) = None.
Proof.
  destruct t as [ob ch tm pl pw fc [|] cr ib cq ms]; cbn; intros ->; split;
    reflexivity.
Qed.

(** C2, the code at the failing input: on a fresh orchestrator nothing
    is focused; after [showModal 1] and [hideModal] the modal slot is
    empty, yet component 1, the modal just closed, holds the focus where
    the claim (and the comment of [hideModal], "restore previous focus")
    asks for [null]: the test [if (previousFocus)] skips a recorded
    [null]. *)
Lemma hideModal_showModal_null_focus_kept :
  focusedComponent Sample.fresh = None
  /\ focusedComponent (hideModal (showModal 1%nat Sample.opts Sample.fresh)) = Some 1%nat
  /\ focusedComponent (hideModal (showModal 1%nat Sample.opts Sample.fresh))
     <> focusedComponent Sample.fresh.
Proof. repeat split. discriminate. Qed.

(** C10: [showModal] records as previous focus whatever is focused at
    the moment of the call; after a first [showModal m1] that is [m1]
    itself, so opening [m2] over it and then closing hands focus to the
    replaced modal component [m1], whatever was focused before [m1]
    opened. *)
Theorem showModal_over_modal_restores_replaced (t : TUI) (m1 m2 : Component)
        (o1 o2 : ModalOptions) :
  (previousFocus <$> modalState (showModal m2 o2 t)) = Some (focusedComponent t)
  /\ isModalVisible (showModal m1 o1 t) = true
  /\ focusedComponent (showModal m1 o1 t) = Some m1
  /\ (previousFocus <$> modalState (showModal m2 o2 (showModal m1 o1 t)))
     = Some (Some m1)
  /\ getModalComponent (showModal m2 o2 (showModal m1 o1 t)) = Some m2
  /\ focusedComponent (hideModal (showModal m2 o2 (showModal m1 o1 t))) = Some m1
  /\ modalState (hideModal (showModal m2 o2 (showModal m1 o1 t))) = None.
Proof.
  destruct t as [ob ch tm pl pw fc [|] cr ib cq ms]; repeat split.
Qed.

(** ** Whole-frame buffers *)

Section Buffers.

Context {U : Utils}.

Lemma emitLines_succ (i : nat) (lines : list string) (buffer : string) :
  emitLines (S i) lines buffer
  = buffer +:+ match lines with
               | [] => ""
               | _ :: _ => Ansi.CRLF +:+ String.concat Ansi.CRLF lines
               end.
Proof.
  revert i buffer. induction lines as [|l r IH]; intros i buffer.
  - cbn [emitLines]. now rewrite append_nil_r.
  - cbn [emitLines]. change (0 <? S i)%nat with true. cbv iota.
    rewrite IH. destruct r as [|l' r'].
    + cbn [String.concat]. now rewrite append_nil_r, append_assoc.
    + cbn [String.concat]. now rewrite !append_assoc.
Qed.

(** The emit loop writes the lines of the frame separated by hard line
    breaks, after what the buffer already holds. *)
Lemma emitLines_concat (lines : list string) (buffer : string) :
  emitLines 0 lines buffer = buffer +:+ String.concat Ansi.CRLF lines.
Proof.
  destruct lines as [|l r].
  - cbn. now rewrite append_nil_r.
  - cbn [emitLines]. change (0 <? 0)%nat with false. cbv iota.
    rewrite emitLines_succ. destruct r as [|l' r'].
    + cbn [String.concat]. now rewrite append_nil_r.
    + cbn [String.concat]. now rewrite !append_assoc.
Qed.

Lemma firstRenderBuffer_shape (newLines : list string) :
  firstRenderBuffer newLines
  = Ansi.SYNC_BEGIN +:+ String.concat Ansi.CRLF newLines +:+ Ansi.SYNC_END.
Proof. unfold firstRenderBuffer. now rewrite emitLines_concat, append_assoc. Qed.

Lemma fullRenderBuffer_shape (newLines : list string) :
  fullRenderBuffer newLines
  = Ansi.SYNC_BEGIN +:+ Ansi.CLEAR_ALL
    +:+ String.concat Ansi.CRLF newLines +:+ Ansi.SYNC_END.
Proof. unfold fullRenderBuffer. now rewrite emitLines_concat, !append_assoc. Qed.

End Buffers.

(** ** The first changed line *)

Section FirstChanged.

Variables previousLines newLines : list string.

Lemma firstChanged_fold_found (l : list nat) (acc : Z) :
  acc <> -1 -> fold_left (firstChangedStep previousLines newLines) l acc = acc.
Proof.
  revert acc. induction l as [|i l IH]; intros acc Hacc; [reflexivity|].
  cbn [fold_left]. unfold firstChangedStep at 2.
  destruct (negb _); [|now apply IH].
  destruct (Z.eqb_spec acc (-1)); [contradiction|now apply IH].
Qed.

Lemma firstChanged_fold_same (l : list nat) :
  (forall i, In i l -> Js.lineAt previousLines i = Js.lineAt newLines i) ->
  fold_left (firstChangedStep previousLines newLines) l (-1) = -1.
Proof.
  induction l as [|i l IH]; intros Hsame; [reflexivity|].
  cbn [fold_left]. unfold firstChangedStep at 2.
  rewrite (Hsame i (or_introl eq_refl)), String.eqb_refl. cbn [negb].
  apply IH. intros j Hj. apply Hsame. now right.
Qed.

Lemma firstChanged_fold_first (a n i : nat) :
  (a <= i < a + n)%nat ->
  Js.lineAt previousLines i <> Js.lineAt newLines i ->
  (forall j, (a <= j < i)%nat -> Js.lineAt previousLines j = Js.lineAt newLines j) ->
  fold_left (firstChangedStep previousLines newLines) (seq a n) (-1) = Z.of_nat i.
Proof.
  revert a. induction n as [|n IH]; intros a Hrange Hdiff Hbefore; [lia|].
  cbn [seq fold_left]. unfold firstChangedStep at 2.
  destruct (decide (a = i)) as [->|Hne].
  - apply String.eqb_neq in Hdiff. rewrite Hdiff. cbn.
    apply firstChanged_fold_found. lia.
  - rewrite (Hbefore a) by lia. rewrite String.eqb_refl. cbn [negb].
    apply IH; [lia|assumption|]. intros j Hj. apply Hbefore. lia.
Qed.

Lemma firstChanged_fold_range (a n : nat) :
  fold_left (firstChangedStep previousLines newLines) (seq a n) (-1) = -1
  \/ 0 <= fold_left (firstChangedStep previousLines newLines) (seq a n) (-1).
Proof.
  revert a. induction n as [|n IH]; intros a; [now left|].
  cbn [seq fold_left]. unfold firstChangedStep at 2 4.
  destruct (negb _); [|apply IH].
  cbn. right. rewrite firstChanged_fold_found; lia.
Qed.

(** A line that differs lies inside one of the two frames. *)
Lemma lineAt_differs_in_range (i : nat) :
  Js.lineAt previousLines i <> Js.lineAt newLines i ->
  (i < Nat.max (length newLines) (length previousLines))%nat.
Proof.
  intros Hdiff.
  destruct (decide (i < Nat.max (length newLines) (length previousLines))%nat)
    as [|Hge]; [assumption|].
  exfalso. apply Hdiff. unfold Js.lineAt.
  rewrite !lookup_ge_None_2 by lia. reflexivity.
Qed.

(** [findFirstChanged] returns the smallest index at which the frames
    differ, a missing line counting as empty. *)
Lemma findFirstChanged_smallest (i : nat) :
  Js.lineAt previousLines i <> Js.lineAt newLines i ->
  (forall j, (j < i)%nat -> Js.lineAt previousLines j = Js.lineAt newLines j) ->
  findFirstChanged previousLines newLines = Z.of_nat i.
Proof.
  intros Hdiff Hbefore. unfold findFirstChanged.
  apply firstChanged_fold_first; [|assumption|].
  - pose proof (lineAt_differs_in_range i Hdiff). lia.
  - intros j Hj. apply Hbefore. lia.
Qed.

Lemma findFirstChanged_range :
  findFirstChanged previousLines newLines = -1
  \/ 0 <= findFirstChanged previousLines newLines.
Proof. apply firstChanged_fold_range. Qed.

End FirstChanged.

Lemma findFirstChanged_refl (lines : list string) :
  findFirstChanged lines lines = -1.
Proof. unfold findFirstChanged. now apply firstChanged_fold_same. Qed.

(** ** The branches of a render pass *)

Section Branches.

Context {U : Utils}.

Lemma doRender_first (t : TUI) (newLines : list string) :
  newFrame t = Js.Ok newLines ->
  previousLines t = [] ->
  doRender t
  = (commit (firstRenderBuffer newLines) newLines (columns (terminal t)) t, Returned).
Proof. intros Hf Hp. unfold doRender. rewrite Hf, Hp. reflexivity. Qed.

Lemma doRender_lineCountChanged (t : TUI) (newLines : list string) :
  newFrame t = Js.Ok newLines ->
  previousLines t <> [] ->
  length (previousLines t) <> length newLines ->
  doRender t
  = (commit (fullRenderBuffer newLines) newLines (columns (terminal t)) t, Returned).
Proof.
  intros Hf Hp Hlen. unfold doRender. rewrite Hf.
  destruct (previousLines t) as [|p ps] eqn:E; [contradiction|].
  replace (length (p :: ps) =? 0)%nat with false by reflexivity.
  apply Nat.eqb_neq in Hlen. rewrite Hlen. cbn [negb andb].
  rewrite orb_true_r. reflexivity.
Qed.

Lemma doRender_aboveViewport (t : TUI) (newLines : list string) :
  newFrame t = Js.Ok newLines ->
  previousLines t <> [] ->
  findFirstChanged (previousLines t) newLines <> -1 ->
  findFirstChanged (previousLines t) newLines < cursorRow t - rows (terminal t) + 1 ->
  doRender t
  = (commit (fullRenderBuffer newLines) newLines (columns (terminal t)) t, Returned).
Proof.
  intros Hf Hp Hfc Hvp. unfold doRender. rewrite Hf.
  destruct (previousLines t) as [|p ps] eqn:E; [contradiction|].
  replace (length (p :: ps) =? 0)%nat with false by reflexivity.
  destruct (_ || _); [reflexivity|].
  apply Z.eqb_neq in Hfc. rewrite Hfc.
  apply Z.ltb_lt in Hvp. rewrite Hvp. reflexivity.
Qed.

Lemma doRender_incremental (t : TUI) (newLines : list string) :
  newFrame t = Js.Ok newLines ->
  previousLines t <> [] ->
  previousWidth t = 0 \/ previousWidth t = columns (terminal t) ->
  length newLines = length (previousLines t) ->
  findFirstChanged (previousLines t) newLines <> -1 ->
  cursorRow t - rows (terminal t) + 1 <= findFirstChanged (previousLines t) newLines ->
  doRender t
  = match incrementalBuffer (previousLines t) newLines (columns (terminal t))
                            (cursorRow t)
                            (findFirstChanged (previousLines t) newLines) with
    | Js.Throw e => (t, Thrown e)
    | Js.Ok buffer => (commit buffer newLines (columns (terminal t)) t, Returned)
    end.
Proof.
  intros Hf Hp Hw Hlen Hfc Hvp. unfold doRender. rewrite Hf.
  destruct (previousLines t) as [|p ps] eqn:E; [contradiction|].
  replace (length (p :: ps) =? 0)%nat with false by reflexivity.
  rewrite <- Hlen, Nat.eqb_refl.
  replace (negb (previousWidth t =? 0) && negb (previousWidth t =? columns (terminal t)))
    with false.
  2:{ destruct Hw as [-> | ->]; [reflexivity|].
      rewrite Z.eqb_refl. cbn. now rewrite andb_false_r. }
  cbn [negb andb orb].
  apply Z.eqb_neq in Hfc. rewrite Hfc.
  apply Z.ltb_ge in Hvp. rewrite Hvp. reflexivity.
Qed.

(** The rewrite loop raises as soon as it meets a line that is wider
    than the terminal and carries no image. *)
Lemma rewriteLines_overwide (w firstChanged i : Z) (lines : list string)
      (buffer line : string) :
  In line lines -> containsImage line = false -> w < visibleWidth line ->
  exists j, rewriteLines w firstChanged i lines buffer
            = Js.Throw (Js.RenderedLineExceeds j).
Proof.
  intros Hin Himg Hwide. revert i buffer.
  induction lines as [|l r IH]; intros i buffer; [destruct Hin|].
  cbn [rewriteLines].
  destruct (negb (containsImage l) && (w <? visibleWidth l)) eqn:Hl.
  - now exists i.
  - destruct Hin as [-> | Hin].
    + rewrite Himg in Hl. apply Z.ltb_lt in Hwide. rewrite Hwide in Hl. discriminate.
    + apply IH. assumption.
Qed.

Lemma clearExtra_append (n : nat) (buffer : string) :
  clearExtra n buffer = buffer +:+ clearExtra n "".
Proof.
  revert buffer. induction n as [|n IH]; intros buffer; cbn [clearExtra].
  - now rewrite append_nil_r.
  - rewrite IH, (IH ("" +:+ _)). now rewrite !append_assoc.
Qed.

(** The last statements of the incremental branch do produce the
    shrinking shape when they are reached with a longer previous frame. *)
Lemma incrementalBuffer_shrinks (prev newLines : list string)
      (w cr firstChanged : Z) (patch : string) :
  (length newLines < length prev)%nat ->
  incrementalBuffer prev newLines w cr firstChanged = Js.Ok patch ->
  ClearsOrphansAndWalksBack prev newLines patch.
Proof.
  intros Hlen. unfold incrementalBuffer, mbind, Result_bind, Js.bind.
  destruct (rewriteLines _ _ _ _ _) as [buffer|e]; [|discriminate].
  apply Nat.ltb_lt in Hlen. rewrite Hlen. intros [= <-].
  exists buffer. unfold shrinkTail.
  now rewrite clearExtra_append, !append_assoc.
Qed.

End Branches.

(** ** Claims about the render pass *)

Section RenderClaims.

Context {U : Utils}.

(** C1 (as amended): when the previous frame is longer than the new
    frame, the pass is a full reset: one write holding the begin marker,
    clear scrollback, clear screen, home, the whole new frame with hard
    line breaks between its lines, and the end marker; the cursor row
    becomes the last index of the new frame and the new frame is the
    baseline. *)
Theorem shrinking_frame_full_reset (t : TUI) (newLines : list string) :
  newFrame t = Js.Ok newLines ->
  (length newLines < length (previousLines t))%nat ->
  exists t',
    doRender t = (t', Returned)
    /\ written (terminal t')
       = written (terminal t)
         ++ [Ansi.SYNC_BEGIN +:+ Ansi.CLEAR_ALL
             +:+ String.concat Ansi.CRLF newLines +:+ Ansi.SYNC_END]
    /\ cursorRow t' = Z.of_nat (length newLines) - 1
    /\ previousLines t' = newLines
    /\ previousWidth t' = columns (terminal t).
Proof.
  intros Hf Hlen. eexists. split.
  - apply doRender_lineCountChanged; [eassumption| |lia].
    intros E. rewrite E in Hlen. cbn in Hlen. lia.
  - rewrite <- fullRenderBuffer_shape. apply commit_fields.
Qed.

(** The path that does check: in a pass that reaches the incremental
    branch (baseline not empty, width and line count unchanged, first
    changed line not above the viewport), a line at or after the first
    changed line that carries no image and is wider than the terminal
    makes the pass throw, leaving the whole state as it was: nothing
    written, same previous frame, previous width and cursor row. *)
Lemma incremental_overwide_aborts (t : TUI) (newLines : list string)
        (k : nat) (line : string) :
  newFrame t = Js.Ok newLines ->
  previousLines t <> [] ->
  previousWidth t = 0 \/ previousWidth t = columns (terminal t) ->
  length newLines = length (previousLines t) ->
  findFirstChanged (previousLines t) newLines <> -1 ->
  cursorRow t - rows (terminal t) + 1 <= findFirstChanged (previousLines t) newLines ->
  findFirstChanged (previousLines t) newLines <= Z.of_nat k ->
  newLines !! k = Some line ->
  containsImage line = false ->
  columns (terminal t) < visibleWidth line ->
  exists i, doRender t = (t, Thrown (Js.RenderedLineExceeds i)).
Proof.
  intros Hf Hp Hw Hlen Hfc Hvp Hk Hline Himg Hwide.
  rewrite (doRender_incremental t newLines) by assumption.
  unfold incrementalBuffer, mbind, Result_bind, Js.bind.
  set (fc := findFirstChanged (previousLines t) newLines) in *.
  assert (Hin : In line (drop (Z.to_nat fc) newLines)).
  { apply list_elem_of_In, list_elem_of_lookup.
    exists (k - Z.to_nat fc)%nat. rewrite lookup_drop.
    replace (Z.to_nat fc + (k - Z.to_nat fc))%nat with k by lia. assumption. }
  match goal with
  | |- context [rewriteLines ?w ?f ?i ?ls ?b] =>
      destruct (rewriteLines_overwide w f i ls b line Hin Himg Hwide) as [j ->]
  end.
  now exists j.
Qed.

(** C4 (as amended): with a baseline that is not empty, at the width of
    the previous pass, a frame equal to the previous frame leaves the
    whole state as it was; in particular nothing is written, whatever the
    cursor row and the terminal height. *)
Theorem unchanged_frame_writes_nothing (t : TUI) :
  previousLines t <> [] ->
  previousWidth t = columns (terminal t) ->
  newFrame t = Js.Ok (previousLines t) ->
  doRender t = (t, Returned).
Proof.
  intros Hp Hw Hf. unfold doRender. rewrite Hf, Hw, Z.eqb_refl, Nat.eqb_refl.
  destruct (previousLines t) as [|p ps] eqn:E; [contradiction|].
  replace (length (p :: ps) =? 0)%nat with false by reflexivity.
  cbn [negb andb]. rewrite !andb_false_r. cbn [orb].
  now rewrite findFirstChanged_refl.
Qed.

(** C5: with the cursor on the last row of the previous frame, when the
    smallest index at which the frames differ lies above the viewport
    top [(L - 1) - H + 1], the pass is a full reset: clear scrollback,
    clear screen, home, then the whole new frame, and the cursor row
    becomes the last index of the new frame. *)
Theorem change_above_viewport_full_reset (t : TUI) (newLines : list string)
        (i : nat) :
  newFrame t = Js.Ok newLines ->
  0 <= rows (terminal t) ->
  cursorRow t = Z.of_nat (length (previousLines t)) - 1 ->
  Js.lineAt (previousLines t) i <> Js.lineAt newLines i ->
  (forall j, (j < i)%nat -> Js.lineAt (previousLines t) j = Js.lineAt newLines j) ->
  Z.of_nat i < (Z.of_nat (length (previousLines t)) - 1) - rows (terminal t) + 1 ->
  findFirstChanged (previousLines t) newLines = Z.of_nat i
  /\ exists t',
      doRender t = (t', Returned)
      /\ written (terminal t')
         = written (terminal t)
           ++ [Ansi.SYNC_BEGIN +:+ (Ansi.CSI "3J" +:+ Ansi.CSI "2J" +:+ Ansi.CSI "H")
               +:+ String.concat Ansi.CRLF newLines +:+ Ansi.SYNC_END]
      /\ cursorRow t' = Z.of_nat (length newLines) - 1
      /\ previousLines t' = newLines
      /\ previousWidth t' = columns (terminal t).
Proof.
  intros Hf Hrows Hcur Hdiff Hbefore Habove.
  pose proof (findFirstChanged_smallest _ _ i Hdiff Hbefore) as Hfc.
  split; [assumption|]. eexists. split.
  - apply doRender_aboveViewport; [eassumption| | |].
    + intros E. rewrite E in Habove. cbn in Habove. lia.
    + lia.
    + lia.
  - change (Ansi.CSI "3J" +:+ Ansi.CSI "2J" +:+ Ansi.CSI "H") with Ansi.CLEAR_ALL.
    rewrite <- fullRenderBuffer_shape. apply commit_fields.
Qed.

End RenderClaims.

Lemma shrinking_frame_full_reset_witness :
  exists t',
    @doRender Plain.utils Sample.shrink = (t', Returned)
    /\ written (terminal t')
       = written (terminal Sample.shrink)
         ++ [Ansi.SYNC_BEGIN +:+ Ansi.CLEAR_ALL
             +:+ String.concat Ansi.CRLF ["x"; "y"; "z"]%string +:+ Ansi.SYNC_END]
    /\ cursorRow t' = Z.of_nat (length ["x"; "y"; "z"]%string) - 1
    /\ previousLines t' = ["x"; "y"; "z"]%string
    /\ previousWidth t' = columns (terminal Sample.shrink).
Proof.
  apply (@shrinking_frame_full_reset Plain.utils Sample.shrink ["x"; "y"; "z"]%string).
  - reflexivity.
  - vm_compute. lia.
Defined.

(** C1 (as stated) fails: with five lines on screen and three different
    lines to draw, the one patch written is the full reset; it does not
    end with the clearing of two orphaned lines and a walk back up. *)
Lemma shrinking_frame_patch_not_incremental :
  @newFrame Plain.utils Sample.shrink = Js.Ok ["x"; "y"; "z"]%string
  /\ length (previousLines Sample.shrink) = 5%nat
  /\ exists patch,
      written (terminal (fst (@doRender Plain.utils Sample.shrink))) = [patch]
      /\ ~ ClearsOrphansAndWalksBack (previousLines Sample.shrink)
                                     ["x"; "y"; "z"]%string patch.
Proof.
  split; [reflexivity|]. split; [reflexivity|].
  eexists. split; [vm_compute; reflexivity|].
  intros [buffer H].
  apply (f_equal (fun s => endsWith s (shrinkTail (previousLines Sample.shrink)
                                                  ["x"; "y"; "z"]%string))) in H.
  rewrite endsWith_append in H. vm_compute in H. discriminate H.
Qed.

Lemma incremental_overwide_aborts_witness :
  exists i, @doRender Plain.utils Sample.overwideIncremental
            = (Sample.overwideIncremental, Thrown (Js.RenderedLineExceeds i)).
Proof.
  apply (@incremental_overwide_aborts Plain.utils Sample.overwideIncremental
           ["b"; "hello"]%string 1%nat "hello"%string).
  - reflexivity.
  - discriminate.
  - right. reflexivity.
  - reflexivity.
  - vm_compute. discriminate.
  - vm_compute. discriminate.
  - vm_compute. discriminate.
  - reflexivity.
  - reflexivity.
  - vm_compute. reflexivity.
Defined.

(** C3, the code at the failing input: on a first render at four
    columns, a frame whose only line is five columns wide and carries no
    image is written and committed as the new baseline.  The loop of the
    first-render branch has no width test; the rewrite loop of the
    incremental branch has one. *)
Lemma overwide_first_render_commits :
  previousLines Sample.overwideFirst = []
  /\ @newFrame Plain.utils Sample.overwideFirst = Js.Ok ["hello"]%string
  /\ @HasOverwideLine Plain.utils ["hello"]%string
                      (columns (terminal Sample.overwideFirst))
  /\ snd (@doRender Plain.utils Sample.overwideFirst) = Returned
  /\ written (terminal (fst (@doRender Plain.utils Sample.overwideFirst)))
     = [Ansi.SYNC_BEGIN +:+ "hello" +:+ Ansi.SYNC_END]
  /\ written (terminal Sample.overwideFirst) = []
  /\ previousLines (fst (@doRender Plain.utils Sample.overwideFirst)) = ["hello"]%string
  /\ previousWidth (fst (@doRender Plain.utils Sample.overwideFirst)) = 4
  /\ previousWidth Sample.overwideFirst = 0.
Proof.
  split; [reflexivity|]. split; [reflexivity|]. split.
  - exists "hello"%string. split; [now left|]. split; [reflexivity|].
    vm_compute. reflexivity.
  - repeat split.
Qed.

Lemma unchanged_frame_writes_nothing_witness :
  @doRender Plain.utils Sample.unchanged = (Sample.unchanged, Returned).
Proof.
  apply (@unchanged_frame_writes_nothing Plain.utils Sample.unchanged).
  - discriminate.
  - reflexivity.
  - reflexivity.
Defined.

(** C4 (as stated) fails: a fresh orchestrator without children has
    rendered once; its second pass runs at the same width with a frame
    equal to the previous (empty) frame, and writes the two markers. *)
Lemma unchanged_empty_frame_is_rewritten :
  previousWidth Sample.emptyRendered = columns (terminal Sample.emptyRendered)
  /\ @newFrame Plain.utils Sample.emptyRendered
     = Js.Ok (previousLines Sample.emptyRendered)
  /\ written (terminal Sample.emptyRendered) = [Ansi.SYNC_BEGIN +:+ Ansi.SYNC_END]
  /\ written (terminal (fst (@doRender Plain.utils Sample.emptyRendered)))
     = [Ansi.SYNC_BEGIN +:+ Ansi.SYNC_END; Ansi.SYNC_BEGIN +:+ Ansi.SYNC_END].
Proof. repeat split. Qed.

Lemma change_above_viewport_full_reset_witness :
  findFirstChanged (previousLines Sample.scrolled) ["X"; "b"; "c"; "d"]%string
  = Z.of_nat 0
  /\ exists t',
      @doRender Plain.utils Sample.scrolled = (t', Returned)
      /\ written (terminal t')
         = written (terminal Sample.scrolled)
           ++ [Ansi.SYNC_BEGIN +:+ (Ansi.CSI "3J" +:+ Ansi.CSI "2J" +:+ Ansi.CSI "H")
               +:+ String.concat Ansi.CRLF ["X"; "b"; "c"; "d"]%string
               +:+ Ansi.SYNC_END]
      /\ cursorRow t' = Z.of_nat (length ["X"; "b"; "c"; "d"]%string) - 1
      /\ previousLines t' = ["X"; "b"; "c"; "d"]%string
      /\ previousWidth t' = columns (terminal Sample.scrolled).
Proof.
  apply (@change_above_viewport_full_reset Plain.utils Sample.scrolled
           ["X"; "b"; "c"; "d"]%string 0%nat).
  - reflexivity.
  - vm_compute. discriminate.
  - reflexivity.
  - vm_compute. discriminate.
  - intros j Hj. lia.
  - vm_compute. reflexivity.
Defined.

(** ** The cursor invariant along runs *)

Section Invariant.

Context {U : Utils}.

Lemma doRender_cursor (t t' : TUI) (o : Outcome) :
  CursorOnLastRow t ->
  doRender t = (t', o) ->
  CursorOnLastRow t'
  /\ (o = Returned -> cursorRow t' = Z.of_nat (length (previousLines t')) - 1).
Proof.
  intros Hinv. unfold doRender.
  destruct (newFrame t) as [newLines|e]; [|intros [= <- <-]; split; [assumption|discriminate]].
  destruct (length (previousLines t) =? 0)%nat eqn:Hlen.
  { intros [= <- <-]. split; [right|intros _]; reflexivity. }
  destruct (_ || _).
  { intros [= <- <-]. split; [right|intros _]; reflexivity. }
  destruct (_ =? -1).
  { intros [= <- <-]. split; [assumption|]. intros _.
    destruct Hinv as [E|E]; [|assumption].
    rewrite E in Hlen. discriminate. }
  destruct (_ <? _).
  { intros [= <- <-]. split; [right|intros _]; reflexivity. }
  destruct (incrementalBuffer _ _ _ _ _).
  - intros [= <- <-]. split; [right|intros _]; reflexivity.
  - intros [= <- <-]. split; [assumption|discriminate].
Qed.

Lemma applyOp_cursor (op : Op) (t : TUI) :
  CursorOnLastRow t -> CursorOnLastRow (applyOp op t).
Proof.
  intros Hinv. destruct op; cbn [applyOp].
  12:{ destruct (renderRequested t) eqn:Hr; [|assumption].
       destruct (runTick t) as [t' o] eqn:E. cbn [fst].
       unfold runTick in E. eapply doRender_cursor; [|exact E].
       exact Hinv. }
  all: unfold CursorOnLastRow in *;
    try destruct images;
    destruct t as [ob ch tm pl pw fc [|] cr ib cq [[mc mo [pf|]]|]];
    cbn in *; intuition auto.
Qed.

Lemma run_cursor (ops : list Op) (t : TUI) :
  CursorOnLastRow t -> CursorOnLastRow (run ops t).
Proof.
  revert t. induction ops as [|op ops IH]; intros t Hinv; [assumption|].
  apply IH, applyOp_cursor, Hinv.
Qed.

(** C6: after every render pass that returns, run on any state an
    orchestrator can reach from its construction, the cursor row is the
    last index of the recorded frame.  The three writing branches set
    both fields together; the no-change branch keeps a baseline that
    already had the property. *)
Theorem cursorRow_is_last_line_after_render
        (tm : Terminal) (objs : Component -> Z -> list string)
        (ops : list Op) (t' : TUI) :
  runTick (run ops (initial tm objs)) = (t', Returned) ->
  cursorRow t' = Z.of_nat (length (previousLines t')) - 1.
Proof.
  intros Hrun. unfold runTick in Hrun.
  eapply doRender_cursor; [|exact Hrun|reflexivity].
  assert (H : CursorOnLastRow (run ops (initial tm objs)))
    by (apply run_cursor; now left).
  exact H.
Qed.

(** C8: [fullRefresh] empties the previous frame, zeroes the previous
    width and the cursor row (the baseline of a new orchestrator), writes
    clear scrollback, clear screen and home, and queues a render; focus,
    the modal record, the children and the terminal dimensions stay as
    they were, and the pass that follows takes the first-render branch. *)
Theorem fullRefresh_resets_baseline_only (t : TUI) :
  previousLines (fullRefresh t) = []
  /\ previousWidth (fullRefresh t) = 0
  /\ cursorRow (fullRefresh t) = 0
  /\ (forall tm objs,
        previousLines (fullRefresh t) = previousLines (initial tm objs)
        /\ previousWidth (fullRefresh t) = previousWidth (initial tm objs)
        /\ cursorRow (fullRefresh t) = cursorRow (initial tm objs))
  /\ written (terminal (fullRefresh t))
     = written (terminal t) ++ [Ansi.CSI "3J" +:+ Ansi.CSI "2J" +:+ Ansi.CSI "H"]
  /\ columns (terminal (fullRefresh t)) = columns (terminal t)
  /\ rows (terminal (fullRefresh t)) = rows (terminal t)
  /\ focusedComponent (fullRefresh t) = focusedComponent t
  /\ modalState (fullRefresh t) = modalState t
  /\ children (fullRefresh t) = children t
  /\ objects (fullRefresh t) = objects t
  /\ renderRequested (fullRefresh t) = true
  /\ doRender (fullRefresh t)
     = match newFrame t with
       | Js.Ok newLines =>
           (commit (firstRenderBuffer newLines) newLines (columns (terminal t))
                   (fullRefresh t), Returned)
       | Js.Throw e => (fullRefresh t, Thrown e)
       end.
Proof.
  destruct t as [ob ch tm pl pw fc [|] cr ib cq ms];
    repeat split;
    unfold doRender;
    match goal with
    | |- context [newFrame (fullRefresh ?t)] =>
        change (newFrame (fullRefresh t)) with (newFrame t);
        destruct (newFrame t); reflexivity
    end.
Qed.

(** ** Empty frames *)

Lemma applyOp_keeps_empty_baseline (op : Op) (t : TUI) :
  isTick op = false -> previousLines t = [] -> previousLines (applyOp op t) = [].
Proof.
  intros Hop Hp. destruct op; try discriminate; cbn [applyOp];
    try destruct images;
    destruct t as [ob ch tm pl pw fc [|] cr ib cq [[mc mo [pf|]]|]];
    cbn in *; auto.
Qed.

Lemma run_keeps_empty_baseline (ops : list Op) (t : TUI) :
  forallb (fun op => negb (isTick op)) ops = true ->
  previousLines t = [] -> previousLines (run ops t) = [].
Proof.
  revert t. induction ops as [|op ops IH]; intros t Hops Hp; [assumption|].
  cbn [forallb] in Hops. apply andb_true_iff in Hops as [Hop Hops].
  apply IH; [assumption|]. apply applyOp_keeps_empty_baseline; [|assumption].
  now destruct (isTick op).
Qed.

(** C9: a pass that starts from an empty baseline and computes a frame
    of zero lines takes the first-render branch: it writes the two
    markers with nothing between them, sets the cursor row to -1 and
    leaves the previous frame empty.  Whatever happens before the next
    pass (children added, a resize, a modal opened), that pass takes the
    first-render branch again: it writes the begin marker, the whole
    frame and the end marker, with no clearing sequence of its own. *)
Theorem empty_frame_keeps_first_render_branch (t : TUI) :
  previousLines t = [] ->
  newFrame t = Js.Ok [] ->
  snd (doRender t) = Returned
  /\ written (terminal (fst (doRender t)))
     = written (terminal t) ++ [Ansi.SYNC_BEGIN +:+ Ansi.SYNC_END]
  /\ cursorRow (fst (doRender t)) = -1
  /\ previousLines (fst (doRender t)) = []
  /\ previousWidth (fst (doRender t)) = columns (terminal t)
  /\ forall (ops : list Op) (newLines : list string),
      forallb (fun op => negb (isTick op)) ops = true ->
      newFrame (run ops (fst (doRender t))) = Js.Ok newLines ->
      doRender (run ops (fst (doRender t)))
      = (commit (Ansi.SYNC_BEGIN +:+ String.concat Ansi.CRLF newLines
                 +:+ Ansi.SYNC_END)
                newLines
                (columns (terminal (run ops (fst (doRender t)))))
                (run ops (fst (doRender t))),
         Returned).
Proof.
  intros Hp Hf. rewrite (doRender_first t [] Hf Hp). cbn [fst snd].
  repeat split.
  intros ops newLines Hops Hnew.
  rewrite <- firstRenderBuffer_shape.
  apply doRender_first; [assumption|].
  apply run_keeps_empty_baseline; [assumption|reflexivity].
Qed.

End Invariant.

Lemma cursorRow_is_last_line_after_render_witness :
  cursorRow (fst (@runTick Plain.utils
                    (@run Plain.utils
                          [AddChild 0%nat; RequestRender; Tick; RequestRender]
                          (initial (mkTerminal 80 24 []) (Sample.always ["a"; "b"]%string)))))
  = Z.of_nat (length (previousLines
       (fst (@runTick Plain.utils
               (@run Plain.utils
                     [AddChild 0%nat; RequestRender; Tick; RequestRender]
                     (initial (mkTerminal 80 24 []) (Sample.always ["a"; "b"]%string))))))) - 1.
Proof.
  apply (@cursorRow_is_last_line_after_render Plain.utils
           (mkTerminal 80 24 []) (Sample.always ["a"; "b"]%string)
           [AddChild 0%nat; RequestRender; Tick; RequestRender]).
  vm_compute. reflexivity.
Defined.

Lemma empty_frame_keeps_first_render_branch_witness :
  snd (@doRender Plain.utils Sample.fresh) = Returned
  /\ written (terminal (fst (@doRender Plain.utils Sample.fresh)))
     = written (terminal Sample.fresh) ++ [Ansi.SYNC_BEGIN +:+ Ansi.SYNC_END]
  /\ cursorRow (fst (@doRender Plain.utils Sample.fresh)) = -1
  /\ previousLines (fst (@doRender Plain.utils Sample.fresh)) = []
  /\ previousWidth (fst (@doRender Plain.utils Sample.fresh))
     = columns (terminal Sample.fresh)
  /\ forall (ops : list Op) (newLines : list string),
      forallb (fun op => negb (isTick op)) ops = true ->
      @newFrame Plain.utils
                (@run Plain.utils ops (fst (@doRender Plain.utils Sample.fresh)))
      = Js.Ok newLines ->
      @doRender Plain.utils
                (@run Plain.utils ops (fst (@doRender Plain.utils Sample.fresh)))
      = (commit (Ansi.SYNC_BEGIN +:+ String.concat Ansi.CRLF newLines
                 +:+ Ansi.SYNC_END)
                newLines
                (columns (terminal
                   (@run Plain.utils ops (fst (@doRender Plain.utils Sample.fresh)))))
                (@run Plain.utils ops (fst (@doRender Plain.utils Sample.fresh))),
         Returned).
Proof.
  apply (@empty_frame_keeps_first_render_branch Plain.utils Sample.fresh).
  - reflexivity.
  - reflexivity.
Defined.

(** ** Modal compositing *)

Section Compositing.

Context {U : Utils}.

Variables dimmedBg paddedModalLines : list string.
Variables startRow startCol terminalWidth terminalHeight : Z.

Local Abbreviation overlay :=
  (overlayRow dimmedBg paddedModalLines startRow startCol
              terminalWidth terminalHeight).

Lemma overlayRow_length (result : list string) (i : nat) :
  length (overlay result i) = length result.
Proof.
  unfold overlayRow. destruct (_ && _); [apply length_insert|reflexivity].
Qed.

Lemma overlay_fold_length (l : list nat) (result : list string) :
  length (fold_left overlay l result) = length result.
Proof.
  revert result. induction l as [|i l IH]; intros result; [reflexivity|].
  cbn [fold_left]. now rewrite IH, overlayRow_length.
Qed.

(** Rows that no modal line lands on keep what they held. *)
Lemma overlay_fold_other (l : list nat) (result : list string) (r : nat) :
  0 <= startRow ->
  (forall i, In i l -> startRow + Z.of_nat i <> Z.of_nat r) ->
  fold_left overlay l result !! r = result !! r.
Proof.
  intros Hs. revert result. induction l as [|i l IH]; intros result Hne; [reflexivity|].
  cbn [fold_left]. rewrite IH by (intros j Hj; apply Hne; now right).
  unfold overlayRow. destruct (_ && _); [|reflexivity].
  apply list_lookup_insert_ne.
  specialize (Hne i (or_introl eq_refl)). lia.
Qed.

(** The row a modal line lands on holds that line overlaid on the
    dimmed background row. *)
Lemma overlay_fold_row (a n i : nat) (result : list string) :
  0 <= startRow ->
  (a <= i < a + n)%nat ->
  startRow + Z.of_nat i < terminalHeight ->
  (Z.to_nat (startRow + Z.of_nat i) < length result)%nat ->
  fold_left overlay (seq a n) result !! Z.to_nat (startRow + Z.of_nat i)
  = Some (overlayLineAt (Js.lineAt dimmedBg (Z.to_nat (startRow + Z.of_nat i)))
                        (Js.lineAt paddedModalLines i) startCol terminalWidth).
Proof.
  intros Hs. revert a result. induction n as [|n IH]; intros a result Hi Hth Hlen; [lia|].
  cbn [seq fold_left]. destruct (decide (a = i)) as [->|Hne].
  - rewrite overlay_fold_other; [|assumption|].
    + unfold overlay, overlayRow.
      replace ((0 <=? startRow + Z.of_nat i) && (startRow + Z.of_nat i <? terminalHeight))
        with true by (symmetry; apply andb_true_iff; split; lia).
      now apply list_lookup_insert_eq.
    + intros j Hj. apply in_seq in Hj. lia.
  - apply IH; [lia|assumption|]. now rewrite overlayRow_length.
Qed.

End Compositing.

Section CompositeModal.

Context {U : Utils}.

Lemma padLoop_length (n : nat) (bg padded : list string) (tw : Z) :
  padLoop n bg tw = Js.Ok padded -> length padded = (length bg + n)%nat.
Proof.
  revert bg. induction n as [|n IH]; intros bg; cbn [padLoop].
  - intros [= <-]. lia.
  - unfold mbind, Result_bind, Js.bind.
    destruct (Js.repeat " " tw) as [blank|e]; [|discriminate].
    intros H. apply IH in H. rewrite length_app in H. cbn in H. lia.
Qed.

Lemma dimBg_length (o : ModalOptions) (bg : list string) :
  length (dimBg o bg) = length bg.
Proof.
  unfold dimBg. destruct (dimBackground o) as [[|]|]; try apply length_map; reflexivity.
Qed.

(** C7: the modal is rendered at [options.width] when given and at
    [min(60, terminalWidth - 10)] otherwise; line [i] of that rendering,
    padded to the modal width, is overlaid on row [row0 + i] of the
    padded (and possibly dimmed) background at column [col0], where
    [row0 = max(0, floor((terminalHeight - modalHeight) / 2))] and
    [col0 = max(0, floor((terminalWidth - modalWidth) / 2))]; rows
    outside the modal keep the background.  A modal 10 wide and 3 high
    on a 40x10 terminal is anchored at column 15, row 3. *)
Theorem modal_is_centred (t : TUI) (ms : ModalState)
        (background result : list string) (tw th : Z) :
  modalState t = Some ms ->
  compositeModal t background tw th = Js.Ok result ->
  let mw := match width (options ms) with
            | Some w => w
            | None => Z.min 60 (tw - 10)
            end in
  let modalLines := objects t (component ms) mw in
  let mh := Z.of_nat (length modalLines) in
  let row0 := Z.max 0 ((th - mh) / 2) in
  let col0 := Z.max 0 ((tw - mw) / 2) in
  (exists paddedBg,
      padLoop (Z.to_nat (th - Z.of_nat (length background))) background tw
      = Js.Ok paddedBg
      /\ length result = length paddedBg
      /\ th <= Z.of_nat (length result)
      /\ (forall (i : nat) (line : string),
             modalLines !! i = Some line ->
             row0 + Z.of_nat i < th ->
             result !! Z.to_nat (row0 + Z.of_nat i)
             = Some (overlayLineAt
                       (Js.lineAt (dimBg (options ms) paddedBg)
                                  (Z.to_nat (row0 + Z.of_nat i)))
                       (padToWidth line mw) col0 tw))
      /\ (forall r : nat,
             Z.of_nat r < row0 \/ row0 + mh <= Z.of_nat r ->
             result !! r = dimBg (options ms) paddedBg !! r))
  /\ startRowOf 10 3 = 3
  /\ startColOf 40 10 = 15.
Proof.
  intros Hms Hcomp mw modalLines mh row0 col0.
  split; [|split; reflexivity].
  unfold compositeModal in Hcomp. rewrite Hms in Hcomp.
  unfold mbind, Result_bind, Js.bind in Hcomp.
  destruct (padLoop _ background tw) as [paddedBg|e] eqn:Hpad; [|discriminate].
  injection Hcomp as <-.
  fold mw modalLines in |- *.
  change (modalWidthOf (options ms) tw) with mw.
  change (objects t (component ms) mw) with modalLines.
  rewrite length_map. change (Z.of_nat (length modalLines)) with mh.
  change (startRowOf th mh) with row0. change (startColOf tw mw) with col0.
  pose proof (padLoop_length _ _ _ _ Hpad) as Hlen.
  exists paddedBg. split; [reflexivity|].
  split; [now rewrite overlay_fold_length, dimBg_length|].
  split; [rewrite overlay_fold_length, dimBg_length; lia|].
  split.
  - intros i line Hline Hrow.
    pose proof (lookup_lt_Some _ _ _ Hline) as Hi.
    rewrite overlay_fold_row; [| lia | lia | assumption | rewrite dimBg_length; lia].
    unfold Js.lineAt at 2. rewrite list_lookup_fmap, Hline. reflexivity.
  - intros r Hr. apply overlay_fold_other; [lia|].
    intros i Hi. apply in_seq in Hi. unfold mh in Hr. lia.
Qed.

End CompositeModal.

Lemma modal_is_centred_witness :
  exists result,
    @compositeModal Plain.utils Sample.modal3 ["bg"]%string 40 10 = Js.Ok result
    /\ result !! 3%nat
       = Some (Plain.overlayLineAt (String.concat "" (replicate 40 " "%string))
                                   "0123456789" 15 40).
Proof.
  eexists. split; [reflexivity|].
  destruct (@modal_is_centred Plain.utils Sample.modal3
              (mkModalState 7%nat (mkModalOptions (Some 10) (Some false)) None)
              ["bg"]%string _ 40 10 eq_refl eq_refl)
    as [[paddedBg (Hpad & _ & _ & Hrows & _)] _].
  injection Hpad as <-.
  exact (Hrows 0%nat "0123456789"%string eq_refl eq_refl).
Defined.

(** * Further properties of the orchestrator *)

(** ** Containers *)

Section ContainerFacts.

Lemma render_fold_acc (objs : Component -> Z -> list string) (w : Z)
      (cs : list Component) (acc : list string) :
  fold_left (fun lines child => lines ++ objs child w) cs acc
  = acc ++ concat (map (fun c => objs c w) cs).
Proof.
  revert acc. induction cs as [|c cs IH]; intros acc; cbn [fold_left map concat].
  - now rewrite app_nil_r.
  - now rewrite IH, app_assoc.
Qed.

Lemma removeFirst_absent (c : Component) (cs : list Component) :
  ~ In c cs -> Container.removeFirst c cs = cs.
Proof.
  induction cs as [|x cs IH]; intros Hnot; [reflexivity|].
  cbn [Container.removeFirst]. destruct (Nat.eqb_spec x c) as [->|Hne].
  - exfalso. apply Hnot. now left.
  - f_equal. apply IH. intros Hin. apply Hnot. now right.
Qed.

Lemma removeFirst_split (c : Component) (l1 l2 : list Component) :
  ~ In c l1 -> Container.removeFirst c (l1 ++ c :: l2) = l1 ++ l2.
Proof.
  induction l1 as [|x l1 IH]; intros Hnot; cbn [Container.removeFirst app].
  - now rewrite Nat.eqb_refl.
  - destruct (Nat.eqb_spec x c) as [->|Hne].
    + exfalso. apply Hnot. now left.
    + f_equal. apply IH. intros Hin. apply Hnot. now right.
Qed.

Lemma set_children_same (t : TUI) : set_children (children t) t = t.
Proof. now destruct t. Qed.

(** X1: a container renders the concatenation of what its children
    render, in insertion order; adding a child appends that child's
    lines to the frame and clearing leaves an empty frame. *)
Theorem Container_render_concat (t : TUI) (c : Component) (w : Z) :
  Container.render t w = concat (map (fun child => objects t child w) (children t))
  /\ Container.render (Container.addChild c t) w
     = Container.render t w ++ objects t c w
  /\ Container.render (Container.clear t) w = [].
Proof.
  unfold Container.render. rewrite !render_fold_acc. cbn [app].
  repeat split.
  destruct t as [ob ch tm pl pw fc rr cr ib cq ms]. cbn.
  rewrite map_app, concat_app. cbn. now rewrite app_nil_r.
Qed.

(** X2: [removeChild] takes out the first occurrence of the child and
    nothing else; for a component that is not a child it changes
    nothing, and it undoes an [addChild] of a component that was not a
    child before. *)
Theorem Container_removeChild_first_occurrence (t : TUI) (c : Component) :
  (~ In c (children t) -> Container.removeChild c t = t)
  /\ (forall l1 l2, children t = l1 ++ c :: l2 -> ~ In c l1 ->
        children (Container.removeChild c t) = l1 ++ l2)
  /\ (~ In c (children t) ->
        Container.removeChild c (Container.addChild c t) = t).
Proof.
  repeat split.
  - intros Hnot. unfold Container.removeChild.
    rewrite removeFirst_absent by assumption. apply set_children_same.
  - intros l1 l2 Hch Hnot. unfold Container.removeChild.
    destruct t as [ob ch tm pl pw fc rr cr ib cq ms]. cbn in *. subst ch.
    now apply removeFirst_split.
  - intros Hnot. unfold Container.removeChild, Container.addChild.
    destruct t as [ob ch tm pl pw fc rr cr ib cq ms]. cbn in *.
    unfold set_children. cbn. f_equal.
    rewrite <- (app_nil_r ch) at 2. now apply removeFirst_split.
Qed.

End ContainerFacts.

Lemma Container_removeChild_first_occurrence_witness :
  Container.removeChild 3%nat (Container.addChild 3%nat Sample.fresh) = Sample.fresh.
Proof.
  apply (Container_removeChild_first_occurrence Sample.fresh 3%nat).
  cbn. tauto.
Defined.

(** ** Frames that do not differ *)

Section SameFrames.

Variables previousLines newLines : list string.

Lemma firstChanged_fold_none (a n : nat) :
  fold_left (firstChangedStep previousLines newLines) (seq a n) (-1) = -1 ->
  forall i, (a <= i < a + n)%nat -> Js.lineAt previousLines i = Js.lineAt newLines i.
Proof.
  revert a. induction n as [|n IH]; intros a Hfold i Hi; [lia|].
  cbn [seq fold_left] in Hfold. unfold firstChangedStep at 2 in Hfold.
  destruct (String.eqb_spec (Js.lineAt previousLines a) (Js.lineAt newLines a))
    as [Heq|Hne]; cbn [negb] in Hfold.
  - destruct (decide (i = a)) as [->|Hia]; [assumption|].
    apply (IH (S a)); [assumption|lia].
  - cbn in Hfold. rewrite firstChanged_fold_found in Hfold; lia.
Qed.

Lemma findFirstChanged_none_lineAt :
  findFirstChanged previousLines newLines = -1 <->
  (forall i, Js.lineAt previousLines i = Js.lineAt newLines i).
Proof.
  split.
  - intros Hfc i.
    destruct (decide (i < Nat.max (length newLines) (length previousLines))%nat)
      as [Hlt|Hge].
    + apply (firstChanged_fold_none 0 _ Hfc). lia.
    + unfold Js.lineAt. rewrite !lookup_ge_None_2 by lia. reflexivity.
  - intros Hsame. apply firstChanged_fold_same. intros i _. apply Hsame.
Qed.

Lemma lineAt_same_eq :
  length previousLines = length newLines ->
  (forall i, Js.lineAt previousLines i = Js.lineAt newLines i) ->
  previousLines = newLines.
Proof.
  intros Hlen Hsame. apply list_eq. intros i.
  specialize (Hsame i). unfold Js.lineAt in Hsame.
  destruct (previousLines !! i) as [x|] eqn:Hx, (newLines !! i) as [y|] eqn:Hy;
    cbn in Hsame; try congruence.
  - apply lookup_lt_Some in Hx. apply lookup_ge_None in Hy. lia.
  - apply lookup_lt_Some in Hy. apply lookup_ge_None in Hx. lia.
Qed.

(** X3: the search for the first changed line finds none exactly when
    the two frames agree at every index, a missing line counting as an
    empty one; for frames of the same length that is equality of the
    frames.  Otherwise the result is an index inside the longer frame. *)
Theorem findFirstChanged_none_iff_same :
  (findFirstChanged previousLines newLines = -1 <->
   forall i, Js.lineAt previousLines i = Js.lineAt newLines i)
  /\ (length previousLines = length newLines ->
      (findFirstChanged previousLines newLines = -1 <-> previousLines = newLines))
  /\ (findFirstChanged previousLines newLines = -1
      \/ 0 <= findFirstChanged previousLines newLines
              < Z.of_nat (Nat.max (length newLines) (length previousLines))).
Proof.
  split; [apply findFirstChanged_none_lineAt|]. split.
  - intros Hlen. rewrite findFirstChanged_none_lineAt. split.
    + now apply lineAt_same_eq.
    + now intros ->.
  - destruct (decide (findFirstChanged previousLines newLines = -1)) as [|Hne];
      [now left|right].
    assert (Hex : exists i, Js.lineAt previousLines i <> Js.lineAt newLines i
                            /\ forall j, (j < i)%nat ->
                                 Js.lineAt previousLines j = Js.lineAt newLines j).
    { assert (Hnot : ~ forall i, Js.lineAt previousLines i = Js.lineAt newLines i)
        by (intros H; apply Hne, findFirstChanged_none_lineAt, H).
      assert (Hbound : forall n,
                 (forall i, (i < n)%nat ->
                    Js.lineAt previousLines i = Js.lineAt newLines i)
                 \/ exists i, Js.lineAt previousLines i <> Js.lineAt newLines i
                              /\ forall j, (j < i)%nat ->
                                   Js.lineAt previousLines j = Js.lineAt newLines j).
      { induction n as [|n [IH|IH]]; [left; intros; lia| |now right].
        destruct (decide (Js.lineAt previousLines n = Js.lineAt newLines n)) as [E|E].
        - left. intros i Hi. destruct (decide (i = n)) as [->|]; [assumption|].
          apply IH. lia.
        - right. exists n. split; assumption. }
      destruct (Hbound (Nat.max (length newLines) (length previousLines)))
        as [Hall|Hex]; [|assumption].
      exfalso. apply Hnot. intros i.
      destruct (decide (i < Nat.max (length newLines) (length previousLines))%nat);
        [now apply Hall|].
      unfold Js.lineAt. rewrite !lookup_ge_None_2 by lia. reflexivity. }
    destruct Hex as (i & Hdiff & Hbefore).
    rewrite (findFirstChanged_smallest _ _ i Hdiff Hbefore).
    pose proof (lineAt_differs_in_range _ _ i Hdiff). lia.
Qed.

End SameFrames.

(** ** What a render pass writes and what it leaves alone *)

Section PassFacts.

Context {U : Utils}.

Lemma rewriteLines_extends (w fc i : Z) (lines : list string) (buffer b : string) :
  rewriteLines w fc i lines buffer = Js.Ok b -> exists s, b = buffer +:+ s.
Proof.
  revert i buffer. induction lines as [|l r IH]; intros i buffer; cbn [rewriteLines].
  - intros [= <-]. exists ""%string. now rewrite append_nil_r.
  - destruct (_ && _); [discriminate|]. intros H. apply IH in H as [s ->].
    destruct (fc <? i);
      [exists (Ansi.CRLF +:+ Ansi.CLEAR_LINE +:+ l +:+ s)
      |exists (Ansi.CLEAR_LINE +:+ l +:+ s)];
      now rewrite !append_assoc.
Qed.

Lemma incrementalBuffer_framed (prev newLines : list string) (w cr fc : Z) (b : string) :
  incrementalBuffer prev newLines w cr fc = Js.Ok b ->
  exists body, b = Ansi.SYNC_BEGIN +:+ body +:+ Ansi.SYNC_END.
Proof.
  unfold incrementalBuffer, mbind, Result_bind, Js.bind.
  destruct (rewriteLines _ _ _ _ _) as [b0|e] eqn:Hrw; [|discriminate].
  apply rewriteLines_extends in Hrw as [s ->]. intros [= <-].
  set (move := if 0 <? fc - cr then Ansi.DOWN (fc - cr)
               else if fc - cr <? 0 then Ansi.UP (- (fc - cr)) else ""%string).
  assert (Hmove : (if 0 <? fc - cr then Ansi.SYNC_BEGIN +:+ Ansi.DOWN (fc - cr)
                   else if fc - cr <? 0 then Ansi.SYNC_BEGIN +:+ Ansi.UP (- (fc - cr))
                        else Ansi.SYNC_BEGIN)
                  = Ansi.SYNC_BEGIN +:+ move).
  { unfold move. destruct (0 <? fc - cr); [reflexivity|].
    destruct (fc - cr <? 0); [reflexivity|]. now rewrite append_nil_r. }
  rewrite Hmove.
  destruct (length newLines <? length prev)%nat.
  - rewrite clearExtra_append.
    exists (move +:+ Ansi.CR +:+ s
            +:+ clearExtra (length prev - length newLines) ""
            +:+ Ansi.UP (Z.of_nat (length prev) - Z.of_nat (length newLines))).
    now rewrite !append_assoc.
  - exists (move +:+ Ansi.CR +:+ s). now rewrite !append_assoc.
Qed.

Lemma firstRenderBuffer_framed (newLines : list string) :
  exists body, firstRenderBuffer newLines = Ansi.SYNC_BEGIN +:+ body +:+ Ansi.SYNC_END.
Proof. eexists. apply firstRenderBuffer_shape. Qed.

Lemma fullRenderBuffer_framed (newLines : list string) :
  exists body, fullRenderBuffer newLines = Ansi.SYNC_BEGIN +:+ body +:+ Ansi.SYNC_END.
Proof.
  exists (Ansi.CLEAR_ALL +:+ String.concat Ansi.CRLF newLines).
  now rewrite fullRenderBuffer_shape, !append_assoc.
Qed.

(** Every way a pass can end. *)
Lemma doRender_cases (t t' : TUI) (o : Outcome) :
  doRender t = (t', o) ->
  (exists e, o = Thrown e /\ t' = t)
  \/ (o = Returned /\ t' = t
      /\ newFrame t = Js.Ok (previousLines t)
      /\ previousLines t <> [])
  \/ (o = Returned
      /\ exists newLines body,
          newFrame t = Js.Ok newLines
          /\ t' = commit (Ansi.SYNC_BEGIN +:+ body +:+ Ansi.SYNC_END) newLines
                         (columns (terminal t)) t).
Proof.
  unfold doRender.
  destruct (newFrame t) as [newLines|e] eqn:Hf;
    [|intros [= <- <-]; left; eauto].
  destruct (length (previousLines t) =? 0)%nat eqn:Hlen0.
  { intros [= <- <-]. right. right. split; [reflexivity|].
    destruct (firstRenderBuffer_framed newLines) as [body ->]. eauto. }
  destruct (_ || _) eqn:Hchanged.
  { intros [= <- <-]. right. right. split; [reflexivity|].
    destruct (fullRenderBuffer_framed newLines) as [body ->]. eauto. }
  destruct (_ =? -1) eqn:Hfc.
  { intros [= <- <-]. right. left.
    apply orb_false_iff in Hchanged as [_ Hcount].
    cbn [negb andb] in Hcount.
    apply negb_false_iff, Nat.eqb_eq in Hcount.
    apply Z.eqb_eq in Hfc.
    pose proof (proj1 (findFirstChanged_none_lineAt _ _) Hfc) as Hall.
    rewrite <- (lineAt_same_eq _ _ Hcount Hall).
    repeat split. intros E. rewrite E in Hlen0. discriminate. }
  destruct (_ <? _).
  { intros [= <- <-]. right. right. split; [reflexivity|].
    destruct (fullRenderBuffer_framed newLines) as [body ->]. eauto. }
  destruct (incrementalBuffer _ _ _ _ _) as [b|e] eqn:Hinc.
  - intros [= <- <-]. right. right. split; [reflexivity|].
    destruct (incrementalBuffer_framed _ _ _ _ _ _ Hinc) as [body ->]. eauto.
  - intros [= <- <-]. left. eauto.
Qed.

End PassFacts.

Section PassTheorems.

Context {U : Utils}.

(** X4: a render pass writes to the terminal at most once, and what it
    writes begins with the synchronized-output begin marker and ends with
    the end marker; a pass that throws writes nothing. *)
Theorem doRender_single_framed_write (t t' : TUI) (o : Outcome) :
  doRender t = (t', o) ->
  (written (terminal t') = written (terminal t)
   \/ exists body,
       o = Returned
       /\ written (terminal t')
          = written (terminal t) ++ [Ansi.SYNC_BEGIN +:+ body +:+ Ansi.SYNC_END])
  /\ (forall e, o = Thrown e -> written (terminal t') = written (terminal t)).
Proof.
  intros H.
  destruct (doRender_cases t t' o H)
    as [(e & -> & ->) | [(-> & -> & _) | (-> & n & body & _ & ->)]].
  - split; [now left|reflexivity].
  - split; [now left|discriminate].
  - split; [right; exists body; split; reflexivity|discriminate].
Qed.

(** X5: whatever the components do when they are asked to render
    (return lines, change their own state, throw), the pass itself
    assigns none of the orchestrator's fields but the baseline, and writes
    to the terminal: children, terminal dimensions, focus, modal state,
    the pending-render flag, the input buffer and the query flag are as
    before.  A pass that throws, from a component or from the width
    test, also leaves the baseline and the terminal output as they were. *)
Theorem doRender_assigns_only_baseline (frame : Js.Result (list string))
        (t t' : TUI) (o : Outcome) :
  doRenderGiven frame t = (t', o) ->
  doRender t = doRenderGiven (newFrame t) t
  /\ children t' = children t
  /\ columns (terminal t') = columns (terminal t)
  /\ rows (terminal t') = rows (terminal t)
  /\ focusedComponent t' = focusedComponent t
  /\ modalState t' = modalState t
  /\ renderRequested t' = renderRequested t
  /\ inputBuffer t' = inputBuffer t
  /\ cellSizeQueryPending t' = cellSizeQueryPending t
  /\ (forall e, frame = Js.Throw e -> o = Thrown e)
  /\ (forall e, o = Thrown e ->
        previousLines t' = previousLines t
        /\ previousWidth t' = previousWidth t
        /\ cursorRow t' = cursorRow t
        /\ written (terminal t') = written (terminal t)).
Proof.
  intros H. split; [reflexivity|]. revert H. unfold doRenderGiven.
  destruct frame as [newLines|e0].
  2:{ intros [= <- <-]. repeat split. now intros e [= ->]. }
  destruct (length (previousLines t) =? 0)%nat;
    [intros [= <- <-]; repeat split; discriminate|].
  destruct (_ || _); [intros [= <- <-]; repeat split; discriminate|].
  destruct (_ =? -1); [intros [= <- <-]; repeat split; discriminate|].
  destruct (_ <? _); [intros [= <- <-]; repeat split; discriminate|].
  destruct (incrementalBuffer _ _ _ _ _);
    intros [= <- <-]; repeat split; discriminate.
Qed.

(** X6: after a pass that returns, the recorded previous frame is the
    frame that pass computed, whichever branch it took. *)
Theorem doRender_records_frame (t t' : TUI) (newLines : list string) :
  newFrame t = Js.Ok newLines ->
  doRender t = (t', Returned) ->
  previousLines t' = newLines.
Proof.
  intros Hf H.
  destruct (doRender_cases t t' _ H)
    as [(e & He & _) | [(_ & -> & Hsame & _) | (_ & n & body & Hn & ->)]].
  - discriminate.
  - congruence.
  - cbn. congruence.
Qed.



End PassTheorems.

(** ** Whole-frame and incremental patches *)

Section Patches.

Context {U : Utils}.

Lemma doRender_widthChanged (t : TUI) (newLines : list string) :
  newFrame t = Js.Ok newLines ->
  previousLines t <> [] ->
  previousWidth t <> 0 ->
  previousWidth t <> columns (terminal t) ->
  doRender t
  = (commit (fullRenderBuffer newLines) newLines (columns (terminal t)) t, Returned).
Proof.
  intros Hf Hp H0 Hw. unfold doRender. rewrite Hf.
  destruct (previousLines t) as [|p ps] eqn:E; [contradiction|].
  replace (length (p :: ps) =? 0)%nat with false by reflexivity.
  apply Z.eqb_neq in H0, Hw. rewrite H0, Hw. reflexivity.
Qed.

Lemma fits_check (w : Z) (line : string) :
  fits w line -> negb (containsImage line) && (w <? visibleWidth line) = false.
Proof.
  intros [Himg|Hw].
  - now rewrite Himg.
  - apply andb_false_iff. right. apply Z.ltb_ge. assumption.
Qed.

Lemma rewriteLines_succ (w fc i : Z) (lines : list string) (buffer : string) :
  fc < i -> Forall (fits w) lines ->
  rewriteLines w fc i lines buffer
  = Js.Ok (buffer
           +:+ match lines with
               | [] => ""
               | _ :: _ =>
                   Ansi.CRLF
                   +:+ String.concat Ansi.CRLF
                         (map (fun l => Ansi.CLEAR_LINE +:+ l) lines)
               end).
Proof.
  intros Hi Hfit. revert i Hi buffer.
  induction Hfit as [|l r Hl Hr IH]; intros i Hi buffer; cbn [rewriteLines].
  - now rewrite append_nil_r.
  - rewrite (fits_check _ _ Hl). apply Z.ltb_lt in Hi. rewrite Hi.
    rewrite IH by (apply Z.ltb_lt in Hi; lia). f_equal.
    destruct r as [|l' r'].
    + cbn [map String.concat]. now rewrite append_nil_r, !append_assoc.
    + cbn [map String.concat]. now rewrite !append_assoc.
Qed.

Lemma rewriteLines_first (w fc : Z) (lines : list string) (buffer : string) :
  Forall (fits w) lines ->
  rewriteLines w fc fc lines buffer
  = Js.Ok (buffer
           +:+ String.concat Ansi.CRLF (map (fun l => Ansi.CLEAR_LINE +:+ l) lines)).
Proof.
  intros Hfit. destruct Hfit as [|l r Hl Hr]; cbn [rewriteLines].
  - cbn. now rewrite append_nil_r.
  - rewrite (fits_check _ _ Hl), Z.ltb_irrefl.
    rewrite rewriteLines_succ by (assumption || lia). f_equal.
    destruct r as [|l' r'].
    + cbn [map String.concat]. now rewrite append_nil_r, !append_assoc.
    + cbn [map String.concat]. now rewrite !append_assoc.
Qed.

(** X8: on a first render (empty baseline) the pass writes the begin
    marker, the lines of the frame separated by hard line breaks and the
    end marker, with nothing else; it checks no line width and cannot
    throw. *)
Theorem first_render_emits_whole_frame (t : TUI) (newLines : list string) :
  previousLines t = [] ->
  newFrame t = Js.Ok newLines ->
  doRender t
  = (commit (Ansi.SYNC_BEGIN +:+ String.concat Ansi.CRLF newLines +:+ Ansi.SYNC_END)
            newLines (columns (terminal t)) t,
     Returned).
Proof.
  intros Hp Hf. rewrite <- firstRenderBuffer_shape. now apply doRender_first.
Qed.

(** X9: when the terminal width differs from the (non-zero) width of
    the previous pass, the pass is a full reset, whatever the frames are:
    never an incremental patch, never a silent return. *)
Theorem width_change_full_reset (t : TUI) (newLines : list string) :
  newFrame t = Js.Ok newLines ->
  previousLines t <> [] ->
  previousWidth t <> 0 ->
  previousWidth t <> columns (terminal t) ->
  doRender t
  = (commit (Ansi.SYNC_BEGIN +:+ Ansi.CLEAR_ALL
             +:+ String.concat Ansi.CRLF newLines +:+ Ansi.SYNC_END)
            newLines (columns (terminal t)) t,
     Returned).
Proof.
  intros Hf Hp H0 Hw. rewrite <- fullRenderBuffer_shape.
  now apply doRender_widthChanged.
Qed.

(** X10: the incremental patch.  With width and line count unchanged,
    the first differing line [i] inside the viewport and every line from
    [i] on within the width (or carrying an image), the pass writes: the
    begin marker, the vertical move from the cursor row to row [i] (down,
    up, or none), a carriage return, then each line from [i] to the end
    preceded by a line clear and separated by hard line breaks, and the
    end marker.  Lines before [i] are not written. *)
Theorem incremental_patch_shape (t : TUI) (newLines : list string) (i : nat) :
  newFrame t = Js.Ok newLines ->
  previousLines t <> [] ->
  previousWidth t = 0 \/ previousWidth t = columns (terminal t) ->
  length newLines = length (previousLines t) ->
  Js.lineAt (previousLines t) i <> Js.lineAt newLines i ->
  (forall j, (j < i)%nat -> Js.lineAt (previousLines t) j = Js.lineAt newLines j) ->
  cursorRow t - rows (terminal t) + 1 <= Z.of_nat i ->
  Forall (fits (columns (terminal t))) (drop i newLines) ->
  doRender t
  = (commit
       (Ansi.SYNC_BEGIN
        +:+ (if 0 <? Z.of_nat i - cursorRow t
             then Ansi.DOWN (Z.of_nat i - cursorRow t)
             else if Z.of_nat i - cursorRow t <? 0
                  then Ansi.UP (- (Z.of_nat i - cursorRow t))
                  else "")
        +:+ Ansi.CR
        +:+ String.concat Ansi.CRLF
              (map (fun l => Ansi.CLEAR_LINE +:+ l) (drop i newLines))
        +:+ Ansi.SYNC_END)
       newLines (columns (terminal t)) t,
     Returned).
Proof.
  intros Hf Hp Hw Hlen Hdiff Hbefore Hvp Hfit.
  pose proof (findFirstChanged_smallest _ _ i Hdiff Hbefore) as Hfc.
  rewrite (doRender_incremental t newLines) by (rewrite ?Hfc; assumption || lia).
  rewrite Hfc. unfold incrementalBuffer, mbind, Result_bind, Js.bind.
  rewrite Nat2Z.id, rewriteLines_first by assumption.
  rewrite Hlen, Nat.ltb_irrefl. do 2 f_equal.
  destruct (0 <? Z.of_nat i - cursorRow t);
    [|destruct (Z.of_nat i - cursorRow t <? 0)];
    now rewrite !append_assoc.
Qed.

End Patches.

Lemma width_change_full_reset_witness :
  @doRender Plain.utils More.resized
  = (commit (Ansi.SYNC_BEGIN +:+ Ansi.CLEAR_ALL
             +:+ String.concat Ansi.CRLF ["a"; "b"]%string +:+ Ansi.SYNC_END)
            ["a"; "b"]%string (columns (terminal More.resized)) More.resized,
     Returned).
Proof.
  apply (@width_change_full_reset Plain.utils More.resized ["a"; "b"]%string).
  - reflexivity.
  - discriminate.
  - vm_compute. discriminate.
  - vm_compute. discriminate.
Defined.

Lemma first_render_emits_whole_frame_witness :
  @doRender Plain.utils Sample.overwideFirst
  = (commit (Ansi.SYNC_BEGIN +:+ String.concat Ansi.CRLF ["hello"]%string
             +:+ Ansi.SYNC_END)
            ["hello"]%string (columns (terminal Sample.overwideFirst))
            Sample.overwideFirst,
     Returned).
Proof.
  apply (@first_render_emits_whole_frame Plain.utils Sample.overwideFirst
           ["hello"]%string); reflexivity.
Defined.

Lemma incremental_patch_shape_witness :
  @doRender Plain.utils More.lastLineChanged
  = (commit (Ansi.SYNC_BEGIN +:+ "" +:+ Ansi.CR
             +:+ String.concat Ansi.CRLF
                   (map (fun l => Ansi.CLEAR_LINE +:+ l) ["X"]%string)
             +:+ Ansi.SYNC_END)
            ["a"; "b"; "X"]%string (columns (terminal More.lastLineChanged))
            More.lastLineChanged,
     Returned).
Proof.
  apply (@incremental_patch_shape Plain.utils More.lastLineChanged
           ["a"; "b"; "X"]%string 2%nat).
  - reflexivity.
  - discriminate.
  - right. reflexivity.
  - reflexivity.
  - vm_compute. discriminate.
  - intros [|[|j]] Hj; [reflexivity|reflexivity|lia].
  - vm_compute. discriminate.
  - constructor; [right; vm_compute; discriminate|constructor].
Defined.

(** ** Render scheduling *)

Section Scheduling.

Context {U : Utils}.








End Scheduling.

(** ** The height of a composited frame *)

Section CompositeHeight.

Context {U : Utils}.

Lemma padLoop_width_ok (n : nat) (bg : list string) (tw : Z) :
  0 <= tw -> exists padded, padLoop n bg tw = Js.Ok padded.
Proof.
  intros Htw. revert bg. induction n as [|n IH]; intros bg; cbn [padLoop].
  - eauto.
  - unfold mbind, Result_bind, Js.bind, Js.repeat.
    replace (tw <? 0) with false by (symmetry; apply Z.ltb_ge; assumption).
    apply IH.
Qed.

Lemma padLoop_width_negative (n : nat) (bg : list string) (tw : Z) :
  tw < 0 -> padLoop (S n) bg tw = Js.Throw Js.RangeError.
Proof.
  intros Htw. cbn [padLoop]. unfold mbind, Result_bind, Js.bind, Js.repeat.
  apply Z.ltb_lt in Htw. now rewrite Htw.
Qed.

(** X12: the ways compositing a modal can end.  The background is
    padded to the terminal height first, which raises a range error when
    padding is needed and the terminal width is negative.  Otherwise the
    modal component is rendered at the modal width: an exception it
    raises (as a bordered [Modal] does below width 2) ends the
    compositing with that exception; when it returns, the composited
    frame is exactly as high as the taller of the background and the
    terminal, so a modal that would reach below the terminal adds no
    rows.  With components that always return their lines this is
    [compositeModal]. *)
Theorem compositeModal_outcomes
        (render : Component -> Z -> Js.Result (list string))
        (t : TUI) (ms : ModalState) (background : list string) (tw th : Z) :
  modalState t = Some ms ->
  (tw < 0 -> Z.of_nat (length background) < th ->
   compositeModalCalling render t background tw th = Js.Throw Js.RangeError)
  /\ (0 <= tw \/ th <= Z.of_nat (length background) ->
      forall e,
        render (component ms)
               (match width (options ms) with
                | Some w => w
                | None => Z.min 60 (tw - 10)
                end) = Js.Throw e ->
        compositeModalCalling render t background tw th = Js.Throw e)
  /\ (0 <= tw \/ th <= Z.of_nat (length background) ->
      forall lines,
        render (component ms)
               (match width (options ms) with
                | Some w => w
                | None => Z.min 60 (tw - 10)
                end) = Js.Ok lines ->
        exists result,
          compositeModalCalling render t background tw th = Js.Ok result
          /\ length result = Nat.max (length background) (Z.to_nat th))
  /\ ((forall c w, render c w = Js.Ok (objects t c w)) ->
      compositeModalCalling render t background tw th
      = compositeModal t background tw th).
Proof.
  intros Hms. unfold compositeModalCalling, compositeModal. rewrite Hms.
  unfold mbind, Result_bind, Js.bind.
  change (modalWidthOf (options ms) tw)
    with (match width (options ms) with
          | Some w => w
          | None => Z.min 60 (tw - 10)
          end).
  assert (Hpad : 0 <= tw \/ th <= Z.of_nat (length background) ->
                 exists padded,
                   padLoop (Z.to_nat (th - Z.of_nat (length background))) background tw
                   = Js.Ok padded).
  { intros [Htw|Hth]; [now apply padLoop_width_ok|].
    replace (Z.to_nat (th - Z.of_nat (length background))) with 0%nat by lia.
    cbn. eauto. }
  repeat split.
  - intros Htw Hth.
    destruct (Z.to_nat (th - Z.of_nat (length background))) as [|n] eqn:E; [lia|].
    now rewrite padLoop_width_negative.
  - intros Hok e He. destruct (Hpad Hok) as [padded ->]. now rewrite He.
  - intros Hok lines Hl. destruct (Hpad Hok) as [padded Hp]. rewrite Hp, Hl.
    eexists. split; [reflexivity|].
    rewrite overlay_fold_length, dimBg_length.
    apply padLoop_length in Hp. lia.
  - intros Hpure.
    destruct (padLoop _ background tw) as [padded|e]; [|reflexivity].
    now rewrite Hpure.
Qed.

End CompositeHeight.

Lemma compositeModal_outcomes_witness :
  @compositeModalCalling Plain.utils
    (fun _ w => @Modal.render Plain.utils (Sample.always ["one"]%string)
                              More.borderedBox w)
    More.narrowModal [] 11 5
  = Js.Throw Js.RangeError.
Proof.
  destruct (@compositeModal_outcomes Plain.utils
              (fun _ w => @Modal.render Plain.utils (Sample.always ["one"]%string)
                                        More.borderedBox w)
              More.narrowModal
              (mkModalState 7%nat (mkModalOptions None (Some true)) None)
              [] 11 5 eq_refl)
    as (_ & Hthrow & _).
  apply Hthrow.
  - left. lia.
  - vm_compute. reflexivity.
Defined.

(** * The modal box component *)

Section ModalFocus.

Import Modal.

Lemma indexOf_lookup (c : Component) (cs : list Component) (i : nat) :
  indexOf c cs = Some i -> cs !! i = Some c.
Proof.
  revert i. induction cs as [|x cs IH]; intros i; cbn [indexOf]; [discriminate|].
  destruct (Nat.eqb_spec x c) as [->|Hne].
  - now intros [= <-].
  - destruct (indexOf c cs) as [k|]; cbn; [|discriminate].
    intros [= <-]. now apply IH.
Qed.

Lemma indexOf_None (c : Component) (cs : list Component) :
  indexOf c cs = None <-> ~ In c cs.
Proof.
  induction cs as [|x cs IH]; cbn [indexOf In]; [tauto|].
  destruct (Nat.eqb_spec x c) as [->|Hne].
  - split; [discriminate|]. intros H. exfalso. apply H. now left.
  - destruct (indexOf c cs) as [k|]; cbn.
    + split; [discriminate|]. intros H. exfalso.
      assert (Hin : ~ In c cs) by tauto. apply IH in Hin. discriminate.
    + split; [|reflexivity]. intros _ [Hx|Hin]; [contradiction|].
      now apply (proj1 IH).
Qed.

Lemma applyOp_focus_valid (op : Modal.Op) (m : Modal.t) :
  FocusValid m -> FocusValid (Modal.applyOp op m).
Proof.
  unfold FocusValid. intros Hv. destruct op; cbn [Modal.applyOp].
  - unfold addChild. cbn. rewrite length_app. cbn. left.
    destruct Hv as [H|[-> ->]]; cbn; lia.
  - unfold removeChild. destruct (indexOf c (children m)) as [k|] eqn:Hk; [|assumption].
    cbn. destruct (Nat.leb_spec (length (delete k (children m))) (focusedChildIndex m)).
    + destruct (delete k (children m)) as [|y ys]; [now right|left; cbn; lia].
    + now left.
  - now right.
  - unfold setFocusedChild.
    destruct (indexOf c (children m)) as [k|] eqn:Hk; [|assumption].
    cbn. left. apply indexOf_lookup in Hk. now apply lookup_lt_Some in Hk.
  - assumption.
  - assumption.
Qed.

Lemma run_focus_valid (ops : list Modal.Op) (m : Modal.t) :
  FocusValid m -> FocusValid (Modal.run ops m).
Proof.
  revert m. induction ops as [|op ops IH]; intros m Hv; [assumption|].
  apply IH, applyOp_focus_valid, Hv.
Qed.

(** X13: whatever children are added, removed, cleared or focused on a
    modal box, its focus index stays on one of its children; the focused
    child is [null] only when the box has no children at all. *)
Theorem Modal_focus_stays_on_a_child (th : Modal.Theme) (o : Modal.ComponentOptions)
        (ops : list Modal.Op) :
  (getFocusedChild (Modal.run ops (create th o)) = None
   <-> children (Modal.run ops (create th o)) = [])
  /\ (forall c, getFocusedChild (Modal.run ops (create th o)) = Some c ->
        In c (children (Modal.run ops (create th o)))).
Proof.
  assert (Hv : FocusValid (Modal.run ops (create th o)))
    by (apply run_focus_valid; now right).
  set (m := Modal.run ops (create th o)) in *. unfold getFocusedChild. split.
  - split.
    + intros Hnone. apply lookup_ge_None in Hnone.
      destruct Hv as [Hlt|[Hnil _]]; [lia|assumption].
    + now intros ->.
  - intros c Hc. apply list_elem_of_In, list_elem_of_lookup. eauto.
Qed.

(** X14: [setFocusedChild] followed by [getFocusedChild] returns the
    child that was given when it is one of the children, and changes
    nothing when it is not. *)
Theorem Modal_setFocusedChild_get (m : Modal.t) (c : Component) :
  (In c (children m) -> getFocusedChild (setFocusedChild c m) = Some c)
  /\ (~ In c (children m) -> setFocusedChild c m = m).
Proof.
  unfold setFocusedChild, getFocusedChild. split; intros H.
  - destruct (indexOf c (children m)) as [k|] eqn:Hk.
    + cbn. now apply indexOf_lookup.
    + apply indexOf_None in Hk. contradiction.
  - apply indexOf_None in H. now rewrite H.
Qed.

(** X15: [removeChild] keeps the focus index, not the focused child.
    Removing a child that comes after the focused one leaves the focused
    child in place; removing one at or before it, while the focused child
    is not the last, hands focus to the child that followed the focused
    one. *)
Theorem Modal_removeChild_focus (m : Modal.t) (c : Component) (k : nat) :
  indexOf c (children m) = Some k ->
  ((focusedChildIndex m < k)%nat ->
   getFocusedChild (removeChild c m) = getFocusedChild m)
  /\ ((k <= focusedChildIndex m)%nat ->
      (S (focusedChildIndex m) < length (children m))%nat ->
      getFocusedChild (removeChild c m) = children m !! S (focusedChildIndex m)).
Proof.
  intros Hk. unfold removeChild, getFocusedChild. rewrite Hk. cbn.
  pose proof (indexOf_lookup _ _ _ Hk) as Hc.
  assert (Hd : length (delete k (children m)) = (length (children m) - 1)%nat)
    by (apply length_delete; eauto).
  apply lookup_lt_Some in Hc.
  split.
  - intros Hlt.
    destruct (Nat.leb_spec (length (delete k (children m))) (focusedChildIndex m));
      [lia|].
    now apply list_lookup_delete_lt.
  - intros Hle Hnext.
    destruct (Nat.leb_spec (length (delete k (children m))) (focusedChildIndex m));
      [lia|].
    now apply list_lookup_delete_ge.
Qed.

End ModalFocus.

Lemma Modal_setFocusedChild_get_witness :
  Modal.getFocusedChild (Modal.setFocusedChild 3%nat More.box3) = Some 3%nat.
Proof.
  apply (Modal_setFocusedChild_get More.box3 3%nat).
  cbn. tauto.
Defined.

Lemma Modal_removeChild_focus_witness :
  Modal.getFocusedChild (Modal.removeChild 1%nat More.box3)
  = Modal.children More.box3 !! 2%nat.
Proof.
  apply (Modal_removeChild_focus More.box3 1%nat 0%nat eq_refl).
  - cbn. lia.
  - cbn. lia.
Defined.

Section ModalRender.

Context {U : Utils}.

Import Modal.

Lemma makeLine_ok (m : Modal.t) (cw : Z) (content : string) :
  0 <= paddingX (options m) -> exists line, makeLine m cw content = Js.Ok line.
Proof.
  intros Hpx. unfold makeLine, mbind, Result_bind, Js.bind, Js.repeat.
  replace (paddingX (options m) <? 0) with false by (symmetry; apply Z.ltb_ge; lia).
  destruct (showBorder (options m)); eauto.
Qed.

Lemma pushLines_ok (m : Modal.t) (cw : Z) (contents result : list string) :
  0 <= paddingX (options m) ->
  exists r, pushLines m cw contents result = Js.Ok r
            /\ length r = (length result + length contents)%nat.
Proof.
  intros Hpx. revert result.
  induction contents as [|c rest IH]; intros result; cbn [pushLines].
  - exists result. split; [reflexivity|cbn; lia].
  - destruct (makeLine_ok m cw c Hpx) as [line ->].
    unfold mbind, Result_bind, Js.bind.
    destruct (IH (result ++ [line])) as (r & -> & Hr).
    exists r. split; [reflexivity|]. rewrite Hr, length_app. cbn. lia.
Qed.

Lemma repeat_ok (s : string) (n : Z) : 0 <= n -> exists r, Js.repeat s n = Js.Ok r.
Proof.
  intros Hn. unfold Js.repeat.
  replace (n <? 0) with false by (symmetry; apply Z.ltb_ge; lia). eauto.
Qed.

Lemma pushHeader_ok (m : Modal.t) (cw : Z) (result : list string) :
  0 <= paddingX (options m) -> 1 <= cw ->
  exists r, pushHeader m cw result = Js.Ok r
            /\ length r
               = (length result
                  + if showHeader (options m)
                    then (if showSeparator (options m) then 2 else 1)
                    else 0)%nat.
Proof.
  intros Hpx Hcw. unfold pushHeader.
  destruct (showHeader (options m)); [|exists result; split; [reflexivity|lia]].
  match goal with
  | |- context [Js.repeat " " ?n] =>
      destruct (repeat_ok " " n ltac:(lia)) as [spacing ->]
  end.
  unfold mbind, Result_bind, Js.bind.
  match goal with
  | |- context [makeLine m cw ?c] => destruct (makeLine_ok m cw c Hpx) as [header ->]
  end.
  destruct (showSeparator (options m)).
  - destruct (repeat_ok "─" cw ltac:(lia)) as [sep ->].
    match goal with
    | |- context [makeLine m cw ?c] => destruct (makeLine_ok m cw c Hpx) as [line ->]
    end.
    eexists. split; [reflexivity|]. rewrite !length_app. cbn. lia.
  - eexists. split; [reflexivity|]. rewrite length_app. cbn. lia.
Qed.

Lemma pushBorder_ok (m : Modal.t) (w : Z) (l r : string) (result : list string) :
  (showBorder (options m) = true -> 2 <= w) ->
  exists res, pushBorder m w l r result = Js.Ok res
              /\ length res
                 = (length result + if showBorder (options m) then 1 else 0)%nat.
Proof.
  intros Hw. unfold pushBorder.
  destruct (showBorder (options m)); [|exists result; split; [reflexivity|lia]].
  destruct (repeat_ok "─" (w - 2) ltac:(specialize (Hw eq_refl); lia)) as [bar ->].
  unfold mbind, Result_bind, Js.bind.
  eexists. split; [reflexivity|]. rewrite length_app. cbn. lia.
Qed.

(** X16: the height of a modal box.  With a non-negative horizontal
    padding, and a width of at least 2 when the border is shown, [render]
    returns: one line per child line (children rendered at the content
    width [max(1, width - border - 2 * paddingX)]), [paddingY] empty lines
    above and below, one header line and one separator line when shown,
    and two border lines when shown.  With the border shown and a width
    below 2, [render] raises a range error. *)
Theorem Modal_render_height (objs : Component -> Z -> list string)
        (m : Modal.t) (w : Z) :
  (0 <= paddingX (options m) ->
   (showBorder (options m) = true -> 2 <= w) ->
   exists lines,
     Modal.render objs m w = Js.Ok lines
     /\ length lines
        = ((if showBorder (options m) then 2 else 0)
           + 2 * Z.to_nat (paddingY (options m))
           + (if showHeader (options m)
              then (if showSeparator (options m) then 2 else 1)
              else 0)
           + length (concat (map (fun c =>
                       objs c (Z.max 1 (w - (if showBorder (options m) then 2 else 0)
                                          - paddingX (options m) * 2)))
                     (children m))))%nat)
  /\ (showBorder (options m) = true -> w < 2 ->
      Modal.render objs m w = Js.Throw Js.RangeError).
Proof.
  split.
  - intros Hpx Hw. unfold Modal.render.
    set (cw := contentWidthOf (options m) w).
    assert (Hcw : 1 <= cw) by (unfold cw, contentWidthOf; lia).
    destruct (pushBorder_ok m w "┌" "┐" [] Hw) as (r1 & -> & H1).
    unfold mbind, Result_bind, Js.bind. unfold pushPadding.
    destruct (pushLines_ok m cw (replicate (Z.to_nat (paddingY (options m))) ""%string)
                           r1 Hpx) as (r2 & -> & H2).
    destruct (pushHeader_ok m cw r2 Hpx Hcw) as (r3 & -> & H3).
    destruct (pushLines_ok m cw (childLinesOf objs m cw) r3 Hpx) as (r4 & -> & H4).
    destruct (pushLines_ok m cw (replicate (Z.to_nat (paddingY (options m))) ""%string)
                           r4 Hpx) as (r5 & -> & H5).
    destruct (pushBorder_ok m w "└" "┘" r5 Hw) as (r6 & -> & H6).
    exists r6. split; [reflexivity|].
    rewrite H6, H5, H4, H3, H2, H1, !length_replicate.
    unfold childLinesOf. rewrite render_fold_acc. cbn [app length].
    fold (contentWidthOf (options m) w). fold cw.
    destruct (showBorder (options m)), (showHeader (options m)),
      (showSeparator (options m)); lia.
  - intros Hb Hw. unfold Modal.render, pushBorder. rewrite Hb.
    unfold mbind, Result_bind, Js.bind, Js.repeat.
    replace (w - 2 <? 0) with true by (symmetry; apply Z.ltb_lt; lia).
    reflexivity.
Qed.

End ModalRender.

Lemma Modal_render_height_witness :
  @Modal.render Plain.utils (Sample.always ["one"; "two"]%string) More.borderedBox 1
  = Js.Throw Js.RangeError.
Proof.
  apply (@Modal_render_height Plain.utils (Sample.always ["one"; "two"]%string)
           More.borderedBox 1).
  - reflexivity.
  - lia.
Defined.

(** * The full-screen box *)

Section JoinKeys.

Import FullScreenBox.

Lemma hasLineFeed_append (a b : string) :
  hasLineFeed (a +:+ b) = hasLineFeed a || hasLineFeed b.
Proof.
  induction a as [|c a IH]; [reflexivity|].
  change (hasLineFeed (String c (a +:+ b)) = hasLineFeed (String c a) || hasLineFeed b).
  cbn [hasLineFeed]. now rewrite IH, orb_assoc.
Qed.

Lemma append_LF_inj (x y a b : string) :
  hasLineFeed x = false -> hasLineFeed y = false ->
  x +:+ LF +:+ a = y +:+ LF +:+ b -> x = y /\ a = b.
Proof.
  revert y. induction x as [|c x IH]; intros [|d y] Hx Hy Heq.
  - change (String (ascii_of_nat 10) a = String (ascii_of_nat 10) b) in Heq.
    injection Heq as ->. now split.
  - exfalso.
    change (String (ascii_of_nat 10) a = String d (y +:+ LF +:+ b)) in Heq.
    injection Heq as Hc _. subst d.
    cbn [hasLineFeed] in Hy. rewrite Ascii.eqb_refl in Hy. discriminate.
  - exfalso.
    change (String c (x +:+ LF +:+ a) = String (ascii_of_nat 10) b) in Heq.
    injection Heq as Hc _. subst c.
    cbn [hasLineFeed] in Hx. rewrite Ascii.eqb_refl in Hx. discriminate.
  - change (String c (x +:+ LF +:+ a) = String d (y +:+ LF +:+ b)) in Heq.
    injection Heq as -> Hrest.
    cbn [hasLineFeed] in Hx, Hy.
    apply orb_false_iff in Hx as [_ Hx]. apply orb_false_iff in Hy as [_ Hy].
    destruct (IH y Hx Hy Hrest) as [-> ->]. now split.
Qed.

Lemma join_cons2 (x y : string) (rest : list string) :
  String.concat LF (x :: y :: rest) = x +:+ LF +:+ String.concat LF (y :: rest).
Proof. reflexivity. Qed.

Lemma join_inj_nonempty (l1 l2 : list string) :
  Forall (fun line => hasLineFeed line = false) l1 ->
  Forall (fun line => hasLineFeed line = false) l2 ->
  l1 <> [] -> l2 <> [] ->
  String.concat LF l1 = String.concat LF l2 -> l1 = l2.
Proof.
  intros H1. revert l2. induction H1 as [|x xs Hx Hxs IH]; intros l2 H2 Hn1 Hn2 Heq;
    [contradiction|].
  destruct H2 as [|y ys Hy Hys]; [contradiction|].
  destruct xs as [|x' xs'], ys as [|y' ys'].
  - cbn in Heq. now subst.
  - exfalso. rewrite join_cons2 in Heq. change (String.concat LF [x]) with x in Heq.
    subst x.
    rewrite !hasLineFeed_append in Hx. cbn in Hx. rewrite orb_true_r in Hx.
    discriminate.
  - exfalso. rewrite join_cons2 in Heq. change (String.concat LF [y]) with y in Heq.
    subst y.
    rewrite !hasLineFeed_append in Hy. cbn in Hy. rewrite orb_true_r in Hy.
    discriminate.
  - rewrite !join_cons2 in Heq.
    destruct (append_LF_inj _ _ _ _ Hx Hy Heq) as [-> Hrest].
    f_equal. apply IH; [assumption|discriminate|discriminate|assumption].
Qed.

(** Joining with line feeds tells keyable lists apart. *)
Lemma join_inj_keyable (l1 l2 : list string) :
  Keyable l1 -> Keyable l2 ->
  String.concat LF l1 = String.concat LF l2 -> l1 = l2.
Proof.
  intros [H1 N1] [H2 N2] Heq.
  assert (Hempty : forall l, Forall (fun line => hasLineFeed line = false) l ->
                     l <> [""%string] -> String.concat LF l = ""%string -> l = []).
  { intros [|x [|y r]] Hl Hn Hc; [reflexivity| |].
    - cbn in Hc. subst x. contradiction.
    - exfalso. rewrite join_cons2 in Hc.
      destruct x; cbn in Hc; discriminate. }
  destruct l1 as [|x xs].
  - symmetry. apply Hempty; [assumption|assumption|]. now rewrite <- Heq.
  - destruct l2 as [|y ys].
    + apply Hempty; assumption.
    + now apply join_inj_nonempty.
Qed.

End JoinKeys.

Section BoxRender.

Context {U : Utils}.

Variable applyBackgroundToLine : string -> Z -> (string -> string) -> string.

Import FullScreenBox.

Local Abbreviation buildLines := (FullScreenBox.buildLines applyBackgroundToLine).
Local Abbreviation boxRender := (FullScreenBox.render applyBackgroundToLine).
Local Abbreviation CacheSound := (FullScreenBox.CacheSound applyBackgroundToLine).

Lemma pushTimes_replicate (n : nat) (line : string) (result : list string) :
  pushTimes n line result = result ++ replicate n line.
Proof.
  revert result. induction n as [|n IH]; intros result; cbn [pushTimes replicate].
  - now rewrite app_nil_r.
  - now rewrite IH, <- app_assoc.
Qed.

Lemma push_each_map (f : string -> string) (cl result : list string) :
  fold_left (fun r line => r ++ [f line]) cl result = result ++ map f cl.
Proof.
  revert result. induction cl as [|l cl IH]; intros result; cbn [fold_left map].
  - now rewrite app_nil_r.
  - now rewrite IH, <- app_assoc.
Qed.

Lemma buildLines_length (b : FullScreenBox.t) (cl : list string) (w th : Z) :
  length (buildLines b cl w th)
  = Nat.max (length cl + 2 * Z.to_nat (paddingY b)) (Z.to_nat th).
Proof.
  unfold FullScreenBox.buildLines.
  rewrite !pushTimes_replicate, push_each_map.
  repeat first [rewrite length_app | rewrite length_replicate | rewrite length_map].
  cbn [length]. lia.
Qed.

Lemma sameString_refl (a : option string) : sameString a a = true.
Proof. destruct a; cbn; [apply String.eqb_refl|reflexivity]. Qed.

Lemma sameNumber_eq (c : option Z) (v : Z) : sameNumber c v = true -> c = Some v.
Proof.
  destruct c as [x|]; cbn; [|discriminate]. intros H. apply Z.eqb_eq in H. now subst.
Qed.

Lemma sameString_eq (a b : option string) : sameString a b = true -> a = b.
Proof.
  destruct a as [x|], b as [y|]; cbn; try discriminate; [|reflexivity].
  intros H. apply String.eqb_eq in H. now subst.
Qed.

(** X17: the height of a full-screen box.  Every render that is not
    served from the cache, because the cache is empty or because the
    cached width, terminal height, child lines or background sample
    differ from the current ones, returns as many lines as the taller of
    the content (child lines plus [paddingY] lines above and below) and
    the terminal, so never fewer than the terminal height, and caches
    those lines; with a negative horizontal padding every render raises a
    range error. *)
Theorem FullScreenBox_render_height (objs : Component -> Z -> list string)
        (b : FullScreenBox.t) (th w : Z) :
  (0 <= paddingX b ->
   cachedLines b = None
   \/ sameNumber (cachedWidth b) w
      && sameNumber (cachedHeight b) th
      && sameString (cachedChildLines b)
           (Some (String.concat LF
                    (childLinesOf objs b (Z.max 1 (w - paddingX b * 2))
                                  (blanks (paddingX b)))))
      && sameString (cachedBgSample b) ((fun f => f "test"%string) <$> bgFn b)
      = false ->
   exists b' lines,
     boxRender objs b th w = Js.Ok (b', lines)
     /\ length lines
        = Nat.max (length (childLinesOf objs b (Z.max 1 (w - paddingX b * 2))
                                        (blanks (paddingX b)))
                   + 2 * Z.to_nat (paddingY b))
                  (Z.to_nat th)
     /\ th <= Z.of_nat (length lines)
     /\ cachedLines b' = Some lines)
  /\ (paddingX b < 0 -> boxRender objs b th w = Js.Throw Js.RangeError).
Proof.
  unfold FullScreenBox.render, mbind, Result_bind, Js.bind, Js.repeat. split.
  - intros Hpx Hmiss.
    replace (paddingX b <? 0) with false by (symmetry; apply Z.ltb_ge; lia).
    fold (blanks (paddingX b)).
    assert (Hlen :
      forall cl, length (buildLines b cl w th)
                 = Nat.max (length cl + 2 * Z.to_nat (paddingY b)) (Z.to_nat th)
                 /\ th <= Z.of_nat (length (buildLines b cl w th))).
    { intros cl. rewrite buildLines_length. split; [reflexivity|lia]. }
    destruct (cachedLines b) as [cached|] eqn:Hc.
    + destruct Hmiss as [Hnone|Hmiss]; [discriminate|]. rewrite Hmiss.
      eexists _, _. split; [reflexivity|]. split; [apply Hlen|].
      split; [apply Hlen|reflexivity].
    + eexists _, _. split; [reflexivity|]. split; [apply Hlen|].
      split; [apply Hlen|reflexivity].
  - intros Hpx. apply Z.ltb_lt in Hpx. now rewrite Hpx.
Qed.

(** X18: rendering a full-screen box twice with the same children, width
    and terminal height returns the same lines both times, and the second
    render leaves the box (cache included) as the first one left it. *)
Theorem FullScreenBox_render_twice (objs : Component -> Z -> list string)
        (b b1 : FullScreenBox.t) (th w : Z) (lines : list string) :
  boxRender objs b th w = Js.Ok (b1, lines) ->
  boxRender objs b1 th w = Js.Ok (b1, lines).
Proof.
  unfold FullScreenBox.render, mbind, Result_bind, Js.bind.
  destruct (Js.repeat " " (paddingX b)) as [leftPad|e] eqn:Hpad; [|discriminate].
  assert (Hrebuilt :
    forall key result sample,
      key = String.concat LF (childLinesOf objs b (Z.max 1 (w - paddingX b * 2)) leftPad) ->
      sample = ((fun f => f "test"%string) <$> bgFn b) ->
      result = buildLines b (childLinesOf objs b (Z.max 1 (w - paddingX b * 2)) leftPad)
                          w th ->
      boxRender objs
        (mkBox (children b) (paddingX b) (paddingY b) (bgFn b)
               (Some w) (Some th) (Some key) sample (Some result)) th w
      = Js.Ok (mkBox (children b) (paddingX b) (paddingY b) (bgFn b)
                     (Some w) (Some th) (Some key) sample (Some result), result)).
  { intros key result sample -> -> ->.
    unfold FullScreenBox.render, mbind, Result_bind, Js.bind. cbn [paddingX].
    rewrite Hpad.
    cbn [cachedLines cachedWidth cachedHeight cachedChildLines cachedBgSample
         sameNumber children paddingX paddingY bgFn].
    unfold childLinesOf at 1. cbn [children].
    fold (childLinesOf objs b (Z.max 1 (w - paddingX b * 2)) leftPad).
    rewrite !Z.eqb_refl, !sameString_refl. reflexivity. }
  destruct (cachedLines b) as [cached|] eqn:Hc.
  - destruct (_ && _) eqn:Hhit.
    + intros [= <- <-]. rewrite Hpad, Hc, Hhit. reflexivity.
    + intros [= <- <-]. now apply Hrebuilt.
  - intros [= <- <-]. now apply Hrebuilt.
Qed.

(** X19: the cache of a full-screen box is transparent.  A new box has a
    sound cache; adding or removing a child, clearing, changing the
    background function and invalidating keep it sound; and on a box with
    a sound cache, a render whose child lines are keyable (no line feed
    inside a line, and not just one empty line) returns exactly the lines
    a rebuild would give for the current children, width and terminal
    height, and leaves a sound cache. *)
Theorem FullScreenBox_cache_transparent (objs : Component -> Z -> list string)
        (b : FullScreenBox.t) (th w : Z) :
  (forall px py bg, CacheSound (FullScreenBox.create px py bg))
  /\ (CacheSound b ->
      (forall c, CacheSound (FullScreenBox.addChild c b))
      /\ (forall c, CacheSound (FullScreenBox.removeChild c b))
      /\ CacheSound (FullScreenBox.clear b)
      /\ (forall bg, CacheSound (FullScreenBox.setBgFn bg b))
      /\ CacheSound (FullScreenBox.invalidate b))
  /\ (CacheSound b ->
      forall b' lines,
        Keyable (childLinesOf objs b (Z.max 1 (w - paddingX b * 2))
                              (blanks (paddingX b))) ->
        boxRender objs b th w = Js.Ok (b', lines) ->
        lines = buildLines b (childLinesOf objs b (Z.max 1 (w - paddingX b * 2))
                                           (blanks (paddingX b))) w th
        /\ CacheSound b').
Proof.
  split; [intros px py bg lines; discriminate|]. split.
  - intros Hs. repeat split; try (intros ? lines; discriminate);
      try (intros lines; discriminate).
    intros c. unfold FullScreenBox.removeChild.
    destruct (Modal.indexOf c (children b)); [intros lines; discriminate|assumption].
  - intros Hs b' lines Hkey.
    unfold FullScreenBox.render, mbind, Result_bind, Js.bind, Js.repeat.
    destruct (paddingX b <? 0); [discriminate|].
    fold (blanks (paddingX b)).
    set (cl := childLinesOf objs b (Z.max 1 (w - paddingX b * 2)) (blanks (paddingX b)))
      in *.
    assert (Hrebuilt :
      forall sample,
        buildLines b cl w th = buildLines b cl w th
        /\ CacheSound (mkBox (children b) (paddingX b) (paddingY b) (bgFn b)
                             (Some w) (Some th) (Some (String.concat LF cl)) sample
                             (Some (buildLines b cl w th)))).
    { intros sample. split; [reflexivity|]. intros ls [= <-].
      exists w, th, cl. repeat split; apply Hkey. }
    destruct (cachedLines b) as [cached|] eqn:Hc.
    + destruct (_ && _) eqn:Hhit.
      * intros [= <- <-].
        apply andb_true_iff in Hhit as [Hhit _].
        apply andb_true_iff in Hhit as [Hhit Hk].
        apply andb_true_iff in Hhit as [Hw Hh].
        apply sameNumber_eq in Hw, Hh. apply sameString_eq in Hk.
        destruct (Hs cached Hc) as (w0 & h0 & cl0 & Hw0 & Hh0 & Hk0 & Hkey0 & ->).
        assert (w0 = w) as -> by congruence.
        assert (h0 = th) as -> by congruence.
        assert (cl0 = cl) as ->.
        { apply join_inj_keyable; [assumption|assumption|congruence]. }
        split; [reflexivity|assumption].
      * intros [= <- <-]. apply Hrebuilt.
    + intros [= <- <-]. apply Hrebuilt.
Qed.

End BoxRender.

(** * Input and the cell-size response *)

Section InputFacts.

Import Input.

Lemma substring_split (n : nat) (s : string) :
  substringTo n s +:+ substringFrom n s = s.
Proof.
  revert n. induction s as [|c s IH]; intros [|n]; try reflexivity.
  change (String c (substringTo n s +:+ substringFrom n s) = String c s).
  now rewrite IH.
Qed.

Lemma stripPrefix_append (p s : string) : stripPrefix p (p +:+ s) = Some s.
Proof.
  induction p as [|a p IH]; [reflexivity|].
  change (stripPrefix (String a p) (String a (p +:+ s)) = Some s).
  cbn [stripPrefix]. now rewrite Ascii.eqb_refl.
Qed.

Lemma takeDigits_append (d : string) (c : ascii) (rest : string) :
  allDigits d = true -> isDigit c = false ->
  takeDigits (d +:+ String c rest) = (d, String c rest).
Proof.
  intros Hd Hc. induction d as [|x d IH].
  - change (takeDigits (String c rest) = ("", String c rest)).
    cbn [takeDigits]. now rewrite Hc.
  - cbn [allDigits] in Hd. apply andb_true_iff in Hd as [Hx Hd].
    change (takeDigits (String x (d +:+ String c rest))
            = (String x d, String c rest)).
    cbn [takeDigits]. now rewrite Hx, (IH Hd).
Qed.

Lemma digits1_append (d : string) (c : ascii) (rest : string) :
  allDigits d = true -> d <> ""%string -> isDigit c = false ->
  digits1 (d +:+ String c rest) = Some (d, String c rest).
Proof.
  intros Hd Hne Hc. unfold digits1. rewrite takeDigits_append by assumption.
  destruct d; [contradiction|reflexivity].
Qed.

Lemma noEsc_matchAt (s : string) : hasEsc s = false -> matchAt s = None.
Proof.
  intros H. unfold matchAt. destruct s as [|c s]; [reflexivity|].
  cbn [hasEsc] in H. apply orb_false_iff in H as [Hc _].
  change (stripPrefix INTRO (String c s))
    with (if Ascii.eqb (ascii_of_nat 27) c then stripPrefix "[6;" s else None).
  rewrite Ascii.eqb_sym, Hc. reflexivity.
Qed.

Lemma noEsc_findResponse (s : string) : hasEsc s = false -> findResponse s = None.
Proof.
  induction s as [|c s IH]; intros H.
  - reflexivity.
  - cbn [findResponse]. rewrite (noEsc_matchAt _ H).
    cbn [hasEsc] in H. apply orb_false_iff in H as [_ H].
    now rewrite (IH H).
Qed.

Lemma noEsc_hasPartial (s : string) : hasEsc s = false -> hasPartial s = false.
Proof.
  induction s as [|c s IH]; intros H.
  - reflexivity.
  - cbn [hasPartial].
    cbn [hasEsc] in H. apply orb_false_iff in H as [Hc H].
    change (stripPrefix INTRO (String c s))
      with (if Ascii.eqb (ascii_of_nat 27) c then stripPrefix "[6;" s else None).
    rewrite Ascii.eqb_sym, Hc. cbn [orb]. now apply IH.
Qed.

Lemma noEsc_lastIndexOfEsc (s : string) : hasEsc s = false -> lastIndexOfEsc s = None.
Proof.
  induction s as [|c s IH]; intros H; [reflexivity|].
  cbn [hasEsc] in H. apply orb_false_iff in H as [Hc H].
  cbn [lastIndexOfEsc]. now rewrite (IH H), Hc.
Qed.

Lemma parse_buffer_conserved (t : TUI) :
  filtered (parseCellSizeResponse t) +:+ inputBuffer (after (parseCellSizeResponse t))
  = match findResponse (inputBuffer t) with
    | Some (before, _, _, rest) => before +:+ rest
    | None => inputBuffer t
    end
  /\ previousLines (after (parseCellSizeResponse t)) = previousLines t
  /\ previousWidth (after (parseCellSizeResponse t)) = previousWidth t
  /\ cursorRow (after (parseCellSizeResponse t)) = cursorRow t
  /\ focusedComponent (after (parseCellSizeResponse t)) = focusedComponent t
  /\ modalState (after (parseCellSizeResponse t)) = modalState t
  /\ terminal (after (parseCellSizeResponse t)) = terminal t
  /\ children (after (parseCellSizeResponse t)) = children t.
Proof.
  unfold parseCellSizeResponse.
  destruct t as [ob ch tm pl pw fc rr cr ib cq ms]. cbn [inputBuffer].
  destruct (findResponse ib) as [[[[before height] width] rest]|].
  - destruct (positive height && positive width), rr;
      cbn [requestRender set_inputBuffer set_cellSizeQueryPending inputBuffer
           renderRequested set_renderRequested];
      (destruct (hasPartial (before +:+ rest));
       [repeat split
       |destruct (lastIndexOfEsc (before +:+ rest)) as [i|];
        [destruct (Z.ltb _ _)|]; cbn;
        rewrite ?substring_split, ?append_nil_r; repeat split]).
  - cbv beta iota zeta. cbn [inputBuffer].
    destruct (hasPartial ib);
      [repeat split
      |destruct (lastIndexOfEsc ib) as [i|];
       [destruct (Z.ltb _ _)|]; cbn;
       rewrite ?substring_split, ?append_nil_r; repeat split].
Qed.

Lemma parse_wait (t : TUI) :
  (findResponse (inputBuffer t) = None ->
   cellSizeQueryPending (after (parseCellSizeResponse t)) = cellSizeQueryPending t
   \/ inputBuffer (after (parseCellSizeResponse t)) = ""%string)
  /\ (findResponse (inputBuffer t) <> None ->
      cellSizeQueryPending (after (parseCellSizeResponse t)) = false).
Proof.
  unfold parseCellSizeResponse.
  destruct t as [ob ch tm pl pw fc rr cr ib cq ms]. cbn [inputBuffer].
  destruct (findResponse ib) as [[[[before height] width] rest]|].
  - split; [discriminate|]. intros _.
    destruct (positive height && positive width), rr;
      cbn [requestRender set_inputBuffer set_cellSizeQueryPending inputBuffer
           renderRequested set_renderRequested];
      (destruct (hasPartial (before +:+ rest));
       [reflexivity
       |destruct (lastIndexOfEsc (before +:+ rest)) as [i|];
        [destruct (Z.ltb _ _)|]; reflexivity]).
  - split; [|intros H; now contradiction H]. intros _.
    cbv beta iota zeta. cbn [inputBuffer].
    destruct (hasPartial ib); [now left|].
    destruct (lastIndexOfEsc ib) as [i|];
      [destruct (Z.ltb _ _); [now left|now right]|now right].
Qed.

(** X20: one call of [parseCellSizeResponse] conserves the buffer: what
    it returns followed by what it leaves in the input buffer is the
    buffer it found, without the first complete cell-size response when
    there was one.  A call that finds no response either keeps waiting or
    leaves the buffer empty; a call that finds one ends the wait, also
    when it holds bytes back, and nothing here says that such bytes are
    delivered later.  The call never touches the render baseline, the
    focus, the modal, the terminal or the children. *)
Theorem parseCellSizeResponse_conserves_buffer (t : TUI) :
  (filtered (parseCellSizeResponse t) +:+ inputBuffer (after (parseCellSizeResponse t))
   = match findResponse (inputBuffer t) with
     | Some (before, _, _, rest) => before +:+ rest
     | None => inputBuffer t
     end
   /\ previousLines (after (parseCellSizeResponse t)) = previousLines t
   /\ previousWidth (after (parseCellSizeResponse t)) = previousWidth t
   /\ cursorRow (after (parseCellSizeResponse t)) = cursorRow t
   /\ focusedComponent (after (parseCellSizeResponse t)) = focusedComponent t
   /\ modalState (after (parseCellSizeResponse t)) = modalState t
   /\ terminal (after (parseCellSizeResponse t)) = terminal t
   /\ children (after (parseCellSizeResponse t)) = children t)
  /\ (findResponse (inputBuffer t) = None ->
      cellSizeQueryPending (after (parseCellSizeResponse t)) = cellSizeQueryPending t
      \/ inputBuffer (after (parseCellSizeResponse t)) = ""%string)
  /\ (findResponse (inputBuffer t) <> None ->
      cellSizeQueryPending (after (parseCellSizeResponse t)) = false).
Proof. split; [apply parse_buffer_conserved|apply parse_wait]. Qed.

(** X21: a complete cell-size response that is all the buffer holds is
    consumed: nothing is returned as input, the buffer is left empty and
    the wait is over; when both sizes are positive they are handed on
    (width first) and a render is requested. *)
Theorem parseCellSizeResponse_consumes_response (t : TUI) (height width : string) :
  allDigits height = true -> height <> ""%string ->
  allDigits width = true -> width <> ""%string ->
  inputBuffer t = INTRO +:+ height +:+ ";" +:+ width +:+ "t" ->
  filtered (parseCellSizeResponse t) = ""%string
  /\ inputBuffer (after (parseCellSizeResponse t)) = ""%string
  /\ cellSizeQueryPending (after (parseCellSizeResponse t)) = false
  /\ cellDimensions (parseCellSizeResponse t)
     = (if positive height && positive width then Some (width, height) else None)
  /\ (positive height && positive width = true ->
      renderRequested (after (parseCellSizeResponse t)) = true).
Proof.
  intros Hh Hhne Hw Hwne Hbuf.
  assert (Hfind : findResponse (inputBuffer t)
                  = Some (""%string, height, width, ""%string)).
  { rewrite Hbuf. destruct height as [|h0 hs]; [contradiction|].
    assert (Hm : matchAt (INTRO +:+ String h0 hs +:+ ";" +:+ width +:+ "t")
                 = Some (String h0 hs, width, ""%string)).
    { unfold matchAt. rewrite stripPrefix_append. cbn [mbind option_bind].
      change (String h0 hs +:+ ";" +:+ width +:+ "t")
        with (String h0 hs +:+ String ";"%char (width +:+ "t")).
      rewrite (digits1_append (String h0 hs) ";"%char (width +:+ "t") Hh Hhne eq_refl).
      cbn [mbind option_bind stripPrefix]. rewrite Ascii.eqb_refl.
      cbn [mbind option_bind stripPrefix].
      change (width +:+ "t") with (width +:+ String "t"%char "").
      rewrite (digits1_append width "t"%char "" Hw Hwne eq_refl).
      cbn [mbind option_bind stripPrefix]. rewrite Ascii.eqb_refl. reflexivity. }
    change (INTRO +:+ String h0 hs +:+ ";" +:+ width +:+ "t")
      with (String (ascii_of_nat 27)
                   ("[6;" +:+ String h0 hs +:+ ";" +:+ width +:+ "t")) in *.
    cbn [findResponse]. now rewrite Hm. }
  unfold parseCellSizeResponse. rewrite Hfind.
  destruct t as [ob ch tm pl pw fc rr cr ib cq ms].
  destruct (positive height && positive width), rr; cbn; repeat split;
    try reflexivity; intros H; (reflexivity || discriminate H).
Qed.

(** X22: genuine input passes through a pending query.  While the
    orchestrator waits for the cell-size response with an empty buffer,
    input that holds no escape character is delivered unchanged to the
    focused component when that component handles input (and a render is
    requested); the buffer stays empty and the wait is abandoned. *)
Theorem handleInput_passes_plain_input (hasHandler : Component -> bool)
        (data : string) (t : TUI) (c : Component) :
  cellSizeQueryPending t = true ->
  inputBuffer t = ""%string ->
  hasEsc data = false ->
  data <> ""%string ->
  focusedComponent t = Some c ->
  hasHandler c = true ->
  delivered (handleInput hasHandler data t) = Some (c, data)
  /\ inputBuffer (state (handleInput hasHandler data t)) = ""%string
  /\ cellSizeQueryPending (state (handleInput hasHandler data t)) = false
  /\ renderRequested (state (handleInput hasHandler data t)) = true
  /\ dimensions (handleInput hasHandler data t) = None.
Proof.
  intros Hp Hb Hesc Hne Hf Hh.
  unfold handleInput. rewrite Hp, Hb.
  change ("" +:+ data) with data.
  unfold parseCellSizeResponse.
  destruct t as [ob ch tm pl pw fc rr cr ib cq ms]. cbn in Hp, Hb, Hf. subst.
  cbn [set_inputBuffer inputBuffer].
  rewrite (noEsc_findResponse _ Hesc). cbv beta iota zeta.
  unfold set_inputBuffer.
  cbn [inputBuffer objects children terminal previousLines previousWidth
       focusedComponent renderRequested cursorRow cellSizeQueryPending modalState].
  rewrite (noEsc_hasPartial _ Hesc), (noEsc_lastIndexOfEsc _ Hesc).
  cbn [filtered after cellDimensions].
  destruct data as [|d ds]; [contradiction|].
  cbn [String.length Nat.eqb]. unfold route. cbn. rewrite Hh.
  destruct rr; cbn; repeat split.
Qed.

End InputFacts.

(** * Instances of the properties above *)

Lemma doRender_single_framed_write_witness :
  (written (terminal (fst (@doRender Plain.utils More.lastLineChanged)))
   = written (terminal More.lastLineChanged)
   \/ exists body,
       Returned = Returned
       /\ written (terminal (fst (@doRender Plain.utils More.lastLineChanged)))
          = written (terminal More.lastLineChanged)
            ++ [Ansi.SYNC_BEGIN +:+ body +:+ Ansi.SYNC_END])
  /\ (forall e, Returned = Thrown e ->
        written (terminal (fst (@doRender Plain.utils More.lastLineChanged)))
        = written (terminal More.lastLineChanged)).
Proof.
  apply (@doRender_single_framed_write Plain.utils More.lastLineChanged
           (fst (@doRender Plain.utils More.lastLineChanged)) Returned).
  vm_compute. reflexivity.
Defined.

Lemma doRender_assigns_only_baseline_witness :
  focusedComponent (fst (@doRenderGiven Plain.utils (Js.Throw Js.RangeError)
                                        More.lastLineChanged))
  = focusedComponent More.lastLineChanged
  /\ previousLines (fst (@doRenderGiven Plain.utils (Js.Throw Js.RangeError)
                                         More.lastLineChanged))
     = previousLines More.lastLineChanged.
Proof.
  destruct (@doRender_assigns_only_baseline Plain.utils (Js.Throw Js.RangeError)
              More.lastLineChanged
              (fst (@doRenderGiven Plain.utils (Js.Throw Js.RangeError)
                                   More.lastLineChanged))
              (Thrown Js.RangeError))
    as (_ & _ & _ & _ & Hf & _ & _ & _ & _ & _ & Hthrown).
  - vm_compute. reflexivity.
  - split; [assumption|]. apply (Hthrown Js.RangeError eq_refl).
Defined.

Lemma doRender_records_frame_witness :
  previousLines (fst (@doRender Plain.utils Sample.unchanged)) = ["a"; "b"]%string.
Proof.
  apply (@doRender_records_frame Plain.utils Sample.unchanged
           (fst (@doRender Plain.utils Sample.unchanged)) ["a"; "b"]%string).
  - reflexivity.
  - vm_compute. reflexivity.
Defined.


Lemma FullScreenBox_render_height_witness :
  exists b' lines,
    @FullScreenBox.render Plain.utils More.applyBackground
      (Sample.always ["one"; "two"]%string) More.screenBoxAfter 6 12
    = Js.Ok (b', lines)
    /\ length lines = 6%nat
    /\ FullScreenBox.cachedLines b' = Some lines.
Proof.
  destruct (proj1 (@FullScreenBox_render_height Plain.utils More.applyBackground
                     (Sample.always ["one"; "two"]%string) More.screenBoxAfter 6 12))
    as (b' & lines & Hr & Hlen & _ & Hc).
  - vm_compute. discriminate.
  - right. vm_compute. reflexivity.
  - exists b', lines. split; [assumption|]. split; [|assumption].
    rewrite Hlen. vm_compute. reflexivity.
Defined.

Lemma FullScreenBox_render_twice_witness :
  @FullScreenBox.render Plain.utils More.applyBackground
    (Sample.always ["one"; "two"]%string) More.screenBoxAfter 6 10
  = Js.Ok (More.screenBoxAfter, More.screenBoxLines).
Proof.
  apply (@FullScreenBox_render_twice Plain.utils More.applyBackground
           (Sample.always ["one"; "two"]%string) More.screenBox).
  vm_compute. reflexivity.
Defined.

Lemma parseCellSizeResponse_consumes_response_witness :
  Input.filtered (Input.parseCellSizeResponse More.answered) = ""%string
  /\ inputBuffer (Input.after (Input.parseCellSizeResponse More.answered)) = ""%string
  /\ cellSizeQueryPending (Input.after (Input.parseCellSizeResponse More.answered))
     = false
  /\ Input.cellDimensions (Input.parseCellSizeResponse More.answered)
     = (if Input.positive "20" && Input.positive "10"
        then Some ("10"%string, "20"%string) else None)
  /\ (Input.positive "20" && Input.positive "10" = true ->
      renderRequested (Input.after (Input.parseCellSizeResponse More.answered)) = true).
Proof.
  apply (parseCellSizeResponse_consumes_response More.answered "20" "10").
  - reflexivity.
  - discriminate.
  - reflexivity.
  - discriminate.
  - reflexivity.
Defined.

Lemma handleInput_passes_plain_input_witness :
  Input.delivered (Input.handleInput (fun _ => true) "hello" More.waiting)
  = Some (1%nat, "hello"%string)
  /\ inputBuffer (Input.state (Input.handleInput (fun _ => true) "hello" More.waiting))
     = ""%string
  /\ cellSizeQueryPending
       (Input.state (Input.handleInput (fun _ => true) "hello" More.waiting)) = false
  /\ renderRequested
       (Input.state (Input.handleInput (fun _ => true) "hello" More.waiting)) = true
  /\ Input.dimensions (Input.handleInput (fun _ => true) "hello" More.waiting) = None.
Proof.
  apply (handleInput_passes_plain_input (fun _ => true) "hello" More.waiting 1%nat).
  - reflexivity.
  - reflexivity.
  - reflexivity.
  - discriminate.
  - reflexivity.
  - reflexivity.
Defined.
